(** * Snackbar (src/components/Snackbar.js): a shallow embedding

    The component owns one animated value ([this.state.scale]) and one timer
    handle ([this._hideTimeout]).  Its methods are written below as programs
    of a small state monad over a [World] that holds the component instance
    together with the part of the host it talks to: the JavaScript timer
    queue ([setTimeout] / [clearTimeout]) and the animation attached to the
    animated value ([Animated.timing(..).start(cb)] / [value.setValue]).

    Every call that crosses the component boundary is appended to a log, so
    that statements about order ("first ..., then ...") and about the number
    of calls are statements about that log. *)

From Stdlib Require Import ZArith List String Ascii Bool Arith Lia.
Import ListNotations.

Set Warnings "-register-all".
Local Open Scope string_scope.

(* ------------------------------------------------------------------ *)
(** ** Values *)

(** A JavaScript [number] as far as [duration] needs it: a whole number of
    milliseconds, or one of the three special values. *)
Inductive number : Type :=
| Num (ms : Z)
| Infinity
| NegInfinity
| NaN.

(** [a === b] on numbers: structural, except that [NaN] equals nothing. *)
Definition number_strict_eq (a b : number) : bool :=
  match a, b with
  | Num x, Num y => Z.eqb x y
  | Infinity, Infinity => true
  | NegInfinity, NegInfinity => true
  | _, _ => false
  end.

(** [a !== b]. *)
Definition number_strict_neq (a b : number) : bool :=
  negb (number_strict_eq a b).

(** A function supplied by the caller ([onDismiss], [action.onPress]),
    known to the component only by its identity. *)
Definition callback := nat.

(** The handle returned by [setTimeout]. *)
Definition TimeoutID := nat.

(** [String.prototype.toUpperCase] is a builtin of the language, with the
    case mapping of Unicode behind it, and no code of the component.  A
    text the component gets by calling it is kept as the call, and [shown]
    gives it its value for the builtin it is handed. *)
Inductive Text : Type :=
| Verbatim (s : string)
| UpperCased (s : string).

Definition shown (toUpperCase : string -> string) (t : Text) : string :=
  match t with
  | Verbatim s => s
  | UpperCased s => toUpperCase s
  end.

(** What the builtin does to a string of ASCII characters only: the
    letters a to z become A to Z, every other character stays. *)
Definition is_lower (c : ascii) : bool :=
  let n := nat_of_ascii c in (97 <=? n)%nat && (n <=? 122)%nat.

Definition ascii_toUpperCase_char (c : ascii) : ascii :=
  if is_lower c then ascii_of_nat (nat_of_ascii c - 32) else c.

Fixpoint ascii_toUpperCase (s : string) : string :=
  match s with
  | EmptyString => EmptyString
  | String c rest =>
      String (ascii_toUpperCase_char c) (ascii_toUpperCase rest)
  end.

Fixpoint has_lower (s : string) : bool :=
  match s with
  | EmptyString => false
  | String c rest => is_lower c || has_lower rest
  end.

Fixpoint is_ascii (s : string) : bool :=
  match s with
  | EmptyString => true
  | String c rest => (nat_of_ascii c <? 128)%nat && is_ascii rest
  end.

(** All that is asked of the builtin: on ASCII strings it is the mapping
    above.  Nothing is said of what it does to other strings. *)
Definition agrees_on_ascii (toUpperCase : string -> string) : Prop :=
  forall s, is_ascii s = true -> toUpperCase s = ascii_toUpperCase s.

(* ------------------------------------------------------------------ *)
(** ** Styles *)

(** The animated nodes a style can be bound to; the component has one. *)
Inductive AnimatedRef : Type :=
| state_scale.

Inductive StyleValue : Type :=
| VNum (n : Z)
| VStr (s : string)
| VImported (name : string)
| VAnimated (r : AnimatedRef)
| VObject (key : string) (v : StyleValue)
| VArray (l : list StyleValue).

(** A style object, and a style array as passed to a [style] prop.  An
    [undefined] entry of the array is [None]. *)
Definition Style := list (string * StyleValue).
Definition StyleArray := list (option Style).

Fixpoint style_get (key : string) (s : Style) : option StyleValue :=
  match s with
  | [] => None
  | (k, v) :: rest => if String.eqb k key then Some v else style_get key rest
  end.

(** The value of [key] once the array is flattened: entries further to the
    right win. *)
Fixpoint flatten_get (key : string) (arr : StyleArray) : option StyleValue :=
  match arr with
  | [] => None
  | entry :: rest =>
      match flatten_get key rest with
      | Some v => Some v
      | None =>
          match entry with
          | Some s => style_get key s
          | None => None
          end
      end
  end.

(* ------------------------------------------------------------------ *)
(** ** Props *)

Record Action : Type := mkAction {
  label : string;
  onPress : callback
}.

Record Theme : Type := mkTheme {
  colors_accent : string;
  roundness : Z
}.

Record Props : Type := mkProps {
  visible : bool;
  action : option Action;
  duration : number;
  onDismiss : callback;
  children : string;
  style : option Style;
  theme : Theme
}.

Definition SNACKBAR_ANIMATION_DURATION : Z := 200.

Definition DURATION_SHORT : number := Num 4000.
Definition DURATION_LONG : number := Num 6000.
Definition DURATION_INDEFINITE : number := Infinity.

(** [static defaultProps = { duration: this.DURATION_LONG }]: what
    [this.props] holds for an element created with the given attributes. *)
Definition createProps (visible : bool) (action : option Action)
    (duration : option number) (onDismiss : callback) (children : string)
    (style : option Style) (theme : Theme) : Props :=
  mkProps visible action
    (match duration with Some d => d | None => DURATION_LONG end)
    onDismiss children style theme.

(* ------------------------------------------------------------------ *)
(** ** The world: component instance and host *)

(** What the animated value holds.  While a timing animation runs, or after
    it was stopped before its end, the value is somewhere on the way. *)
Inductive Progress : Type :=
| Exactly (v : Z)
| Between (from : Progress) (to : Z).

(** The completion callbacks the component hands to the animation system.
    There is one: the arrow function given to [start] in [_show]. *)
Inductive EndCallback : Type :=
| show_onEnd.

Record Animation : Type := mkAnimation {
  fromValue : Progress;
  toValue : Z;
  anim_duration : Z;
  onEnd : EndCallback
}.

Record Timer : Type := mkTimer {
  timer_id : TimeoutID;
  timer_fn : callback;
  timer_delay : number
}.

(** Calls that cross the component boundary, in the order they are made. *)
Inductive Effect : Type :=
| ClearTimeout (h : option TimeoutID)
| SetTimeout (h : TimeoutID) (fn : callback) (delay : number)
| TimingStart (toValue : Z) (duration : Z)
| SetValue (v : Z)
| Call (fn : callback) (nargs : nat)
| TimerCall (h : TimeoutID) (fn : callback).

Record World : Type := mkWorld {
  props : Props;                         (* this.props *)
  scale_value : Progress;                (* this.state.scale, its value *)
  scale_animation : option Animation;    (* ... and the animation on it *)
  _hideTimeout : option TimeoutID;       (* this._hideTimeout *)
  timers : list Timer;                   (* pending timers of the host *)
  next_timeout_id : TimeoutID;           (* next handle the host gives out *)
  log : list Effect;
  mounted : bool
}.

Definition with_props (p : Props) (w : World) : World :=
  mkWorld p (scale_value w) (scale_animation w) (_hideTimeout w)
          (timers w) (next_timeout_id w) (log w) (mounted w).

Definition with_scale (v : Progress) (a : option Animation) (w : World)
  : World :=
  mkWorld (props w) v a (_hideTimeout w)
          (timers w) (next_timeout_id w) (log w) (mounted w).

Definition with_hideTimeout (h : option TimeoutID) (w : World) : World :=
  mkWorld (props w) (scale_value w) (scale_animation w) h
          (timers w) (next_timeout_id w) (log w) (mounted w).

Definition with_timers (ts : list Timer) (n : TimeoutID) (w : World)
  : World :=
  mkWorld (props w) (scale_value w) (scale_animation w) (_hideTimeout w)
          ts n (log w) (mounted w).

Definition with_log (l : list Effect) (w : World) : World :=
  mkWorld (props w) (scale_value w) (scale_animation w) (_hideTimeout w)
          (timers w) (next_timeout_id w) l (mounted w).

Definition with_mounted (b : bool) (w : World) : World :=
  mkWorld (props w) (scale_value w) (scale_animation w) (_hideTimeout w)
          (timers w) (next_timeout_id w) (log w) b.

(* ------------------------------------------------------------------ *)
(** ** A state monad over the world *)

Definition M (A : Type) : Type := World -> A * World.

Definition ret {A : Type} (a : A) : M A := fun w => (a, w).

Definition bind {A B : Type} (m : M A) (k : A -> M B) : M B :=
  fun w => let (a, w') := m w in k a w'.

Definition exec {A : Type} (m : M A) (w : World) : World := snd (m w).

Declare Scope snackbar_scope.
Delimit Scope snackbar_scope with snackbar.
Notation "x <- m ;; k" := (bind m (fun x => k))
  (at level 61, m at next level, right associativity) : snackbar_scope.
Notation "m ;; k" := (bind m (fun _ => k))
  (at level 61, right associativity) : snackbar_scope.
Local Open Scope snackbar_scope.

Definition this_props : M Props := fun w => (props w, w).
Definition this_hideTimeout : M (option TimeoutID) :=
  fun w => (_hideTimeout w, w).
Definition set_hideTimeout (h : TimeoutID) : M unit :=
  fun w => (tt, with_hideTimeout (Some h) w).
Definition emit (e : Effect) : M unit :=
  fun w => (tt, with_log (log w ++ [e]) w).

(* ------------------------------------------------------------------ *)
(** ** Host: timers *)

Definition remove_timer (h : TimeoutID) (ts : list Timer) : list Timer :=
  filter (fun t => negb (Nat.eqb (timer_id t) h)) ts.

(** [clearTimeout(h)]: the timer with that handle, if pending, is dropped;
    [undefined] and handles of timers no longer pending do nothing. *)
Definition clearTimeout (h : option TimeoutID) : M unit :=
  emit (ClearTimeout h) ;;
  fun w =>
    match h with
    | Some id => (tt, with_timers (remove_timer id (timers w))
                                  (next_timeout_id w) w)
    | None => (tt, w)
    end.

(** [setTimeout(fn, delay)]: a new one-shot timer under a fresh handle. *)
Definition setTimeout (fn : callback) (delay : number) : M TimeoutID :=
  fun w =>
    let h := next_timeout_id w in
    (h, with_log (log w ++ [SetTimeout h fn delay])
          (with_timers (timers w ++ [mkTimer h fn delay]) (S h) w)).

(* ------------------------------------------------------------------ *)
(** ** Component: the completion callback of [_show] (lines 154-160)

    It takes the animation's result object and ignores it. *)

Definition _show_onEnd : M unit :=
  p <- this_props ;;
  if number_strict_neq (duration p) DURATION_INDEFINITE then
    h <- setTimeout (onDismiss p) (duration p) ;;
    set_hideTimeout h
  else
    ret tt.

Definition invoke_onEnd (cb : EndCallback) : M unit :=
  match cb with
  | show_onEnd => _show_onEnd
  end.

(* ------------------------------------------------------------------ *)
(** ** Host: the animated value

    An animation started with a completion callback calls it exactly once:
    with [finished: true] when it has run to its end, with
    [finished: false] when it is stopped.  Setting the value directly and
    starting another animation on the value both stop the running one. *)

Definition stop_running : M unit :=
  fun w =>
    match scale_animation w with
    | Some a =>
        invoke_onEnd (onEnd a)
          (with_scale (Between (fromValue a) (toValue a)) None w)
    | None => (tt, w)
    end.

(** [value.setValue(v)]. *)
Definition setValue (v : Z) : M unit :=
  emit (SetValue v) ;;
  stop_running ;;
  fun w => (tt, with_scale (Exactly v) None w).

(** [Animated.timing(value, {toValue, duration}).start(cb)]. *)
Definition timing_start (to : Z) (dur : Z) (cb : EndCallback) : M unit :=
  emit (TimingStart to dur) ;;
  stop_running ;;
  fun w =>
    (tt, with_scale (scale_value w)
           (Some (mkAnimation (scale_value w) to dur cb)) w).

(* ------------------------------------------------------------------ *)
(** ** Component: methods *)

Definition _show : M unit :=
  h <- this_hideTimeout ;;
  clearTimeout h ;;
  timing_start 1 SNACKBAR_ANIMATION_DURATION show_onEnd.

Definition _hide : M unit :=
  h <- this_hideTimeout ;;
  clearTimeout h ;;
  setValue 0.

Definition _toggle : M unit :=
  p <- this_props ;;
  if visible p then _show else _hide.

Definition componentDidUpdate (prevProps : Props) : M unit :=
  p <- this_props ;;
  if negb (Bool.eqb (visible prevProps) (visible p)) then _toggle
  else ret tt.

Definition componentWillUnmount : M unit :=
  h <- this_hideTimeout ;;
  clearTimeout h.

(* ------------------------------------------------------------------ *)
(** ** Component: render *)

Definition styles_wrapper : Style :=
  [ ("position", VStr "absolute"); ("bottom", VNum 0);
    ("width", VStr "100%") ].

Definition styles_container : Style :=
  [ ("elevation", VNum 6); ("backgroundColor", VStr "#323232");
    ("flexDirection", VStr "row");
    ("justifyContent", VStr "space-between");
    ("alignItems", VStr "center"); ("margin", VNum 8);
    ("borderRadius", VNum 4) ].

Definition styles_content : Style :=
  [ ("color", VImported "white"); ("marginLeft", VNum 16);
    ("marginVertical", VNum 14); ("flexWrap", VStr "wrap");
    ("flex", VNum 1) ].

Definition styles_button : Style :=
  [ ("marginHorizontal", VNum 8); ("marginVertical", VNum 6) ].

Record ButtonElement : Type := mkButton {
  button_onPress : M unit;
  button_style : Style;
  button_color : string;
  button_compact : bool;
  button_mode : string;
  button_children : Text
}.

(** The tree under [ThemedPortal]: the animated view, the container view
    in it, the text, and the button when there is an action. *)
Record Rendered : Type := mkRendered {
  view_style : StyleArray;
  container_style : StyleArray;
  text_style : StyleArray;
  text_children : string;
  button : option ButtonElement
}.

Definition call (fn : callback) : M unit := emit (Call fn 0).

(** The style object the component computes for the animated view. *)
Definition own_view_style (p : Props) : Style :=
  [ ("opacity", VNum (if visible p then 1 else 0));
    ("transform", VArray [ VObject "scale" (VAnimated state_scale) ]) ].

Definition render (p : Props) : Rendered :=
  mkRendered
    [ Some styles_wrapper; Some (own_view_style p); style p ]
    [ Some styles_container;
      Some [ ("borderRadius", VNum (roundness (theme p))) ] ]
    [ Some styles_content;
      Some [ ("marginRight",
              VNum (match action p with Some _ => 0 | None => 16 end)) ] ]
    (children p)
    (match action p with
     | Some a =>
         Some (mkButton
                 (call (onPress a) ;; call (onDismiss p))
                 styles_button
                 (colors_accent (theme p))
                 true
                 "text"
                 (UpperCased (label a)))
     | None => None
     end).

(* ------------------------------------------------------------------ *)
(** ** Life of an instance *)

(** A fresh instance: [state = { scale: new Animated.Value(0) }], no
    handle stored, nothing pending.  The class has no [componentDidMount]. *)
Definition mount (p : Props) : World :=
  mkWorld p (Exactly 0) None None [] 0 [] true.

(** What can happen to a mounted instance: the parent renders it again
    with new props, the animation on the value ends, a pending timer
    fires, the user presses the action button, the parent removes it.

    [AnimationEnd true] is the animation reaching its end value.
    [AnimationEnd false] is the host stopping it without a call of the
    component, which it does for a value whose view has gone. *)
Inductive Event : Type :=
| Update (p : Props)
| AnimationEnd (finished : bool)
| TimerFire (h : TimeoutID)
| PressAction
| Unmount.

Definition find_timer (h : TimeoutID) (ts : list Timer) : option Timer :=
  find (fun t => Nat.eqb (timer_id t) h) ts.

(** One event; [None] when the event cannot happen in that world. *)
Definition step (w : World) (e : Event) : option World :=
  match e with
  | Update p =>
      if mounted w
      then Some (exec (componentDidUpdate (props w)) (with_props p w))
      else None
  | AnimationEnd finished =>
      match scale_animation w with
      | Some a =>
          if finished || negb (mounted w) then
            Some (exec (invoke_onEnd (onEnd a))
                    (with_scale
                       (if finished then Exactly (toValue a)
                        else Between (fromValue a) (toValue a))
                       None w))
          else None
      | None => None
      end
  | TimerFire h =>
      match find_timer h (timers w) with
      | Some t =>
          Some (with_log (log w ++ [TimerCall h (timer_fn t)])
                  (with_timers (remove_timer h (timers w))
                               (next_timeout_id w) w))
      | None => None
      end
  | PressAction =>
      if mounted w then
        match button (render (props w)) with
        | Some b => Some (exec (button_onPress b) w)
        | None => None
        end
      else None
  | Unmount =>
      if mounted w
      then Some (with_mounted false (exec componentWillUnmount w))
      else None
  end.

Fixpoint run (w : World) (es : list Event) : option World :=
  match es with
  | [] => Some w
  | e :: rest =>
      match step w e with
      | Some w' => run w' rest
      | None => None
      end
  end.

(* ------------------------------------------------------------------ *)
(** ** What holds in every world an instance can be in *)

(** The animation [_show] starts when the value rests at 0. *)
Definition show_animation : Animation :=
  mkAnimation (Exactly 0) 1 SNACKBAR_ANIMATION_DURATION show_onEnd.

Record Inv (w : World) : Prop := mkInv {
  inv_timers :
    timers w = [] \/
    exists t, timers w = [t] /\ _hideTimeout w = Some (timer_id t);
  inv_fresh :
    forall t, In t (timers w) -> (timer_id t < next_timeout_id w)%nat;
  inv_handle :
    forall h, _hideTimeout w = Some h -> (h < next_timeout_id w)%nat;
  inv_anim :
    forall a, scale_animation w = Some a ->
      a = show_animation /\ timers w = [] /\ visible (props w) = true;
  inv_hidden :
    visible (props w) = false -> scale_value w = Exactly 0
}.

(** Effects that schedule a timer, or are a timer going off. *)
Definition timer_effect (e : Effect) : bool :=
  match e with
  | SetTimeout _ _ _ | TimerCall _ _ => true
  | _ => false
  end.

(** Effects that move the animated value. *)
Definition animation_effect (e : Effect) : bool :=
  match e with
  | TimingStart _ _ | SetValue _ => true
  | _ => false
  end.

Definition is_TimingStart (e : Effect) : bool :=
  match e with
  | TimingStart _ _ => true
  | _ => false
  end.

(** Events under which the [visible] prop stays [b]. *)
Definition keeps_visible (b : bool) (e : Event) : bool :=
  match e with
  | Update p => Bool.eqb (visible p) b
  | _ => true
  end.

(** Events under which [duration] stays the indefinite sentinel. *)
Definition keeps_indefinite (e : Event) : bool :=
  match e with
  | Update p => negb (number_strict_neq (duration p) DURATION_INDEFINITE)
  | _ => true
  end.

(* ------------------------------------------------------------------ *)
(** ** Definitions used in the statements, and inputs for the examples *)

(** The timer queue once [clearTimeout(this._hideTimeout)] has run. *)
Definition cleared (w : World) : list Timer :=
  match _hideTimeout w with
  | Some id => remove_timer id (timers w)
  | None => timers w
  end.

Arguments cleared : simpl never.

(** The world in the middle of [_hide]: handle cleared, [setValue(0)]
    entered. *)
Definition hiding (w : World) (p' : Props) : World :=
  mkWorld p' (scale_value w) (scale_animation w) (_hideTimeout w)
          (cleared w) (next_timeout_id w)
          (log w ++ [ClearTimeout (_hideTimeout w); SetValue 0])
          (mounted w).

(** Whether the caller's [style] prop has an entry for [key]. *)
Definition caller_sets (key : string) (p : Props) : bool :=
  match style p with
  | Some s => match style_get key s with Some _ => true | None => false end
  | None => false
  end.

(** [[{ scale: this.state.scale }]], the transform of the animated view. *)
Definition bound_scale : StyleValue :=
  VArray [ VObject "scale" (VAnimated state_scale) ].

(** Props to run the component on: callback 1 is the caller's
    [onDismiss], callback 2 the [onPress] of its action. *)
Definition plain_theme : Theme := mkTheme "#ff4081" 4.

Definition shown_props : Props :=
  createProps true None None 1 "Saved" None plain_theme.

Definition hidden_props : Props :=
  createProps false None None 1 "Saved" None plain_theme.

Definition hidden_opaque_props : Props :=
  createProps false None None 1 "Saved"
    (Some [ ("opacity", VNum 1) ]) plain_theme.

Definition shown_scaled_props : Props :=
  createProps true None None 1 "Saved"
    (Some [ ("transform", VArray [ VObject "scale" (VNum 2) ]) ])
    plain_theme.

Definition undo : Action := mkAction "Undo" 2.

Definition undo_props (v : bool) (d : option number) : Props :=
  createProps v (Some undo) d 1 "Deleted" None plain_theme.

(** [w'] comes after [w]: the log has only grown, timers pending in [w']
    were pending in [w] or carry a handle that was not yet given out, and
    so does every timer that went off in between. *)
Definition follows (w w' : World) : Prop :=
  exists tr,
    log w' = (log w ++ tr)%list /\
    (next_timeout_id w <= next_timeout_id w')%nat /\
    (forall t, In t (timers w') ->
       In t (timers w) \/ (next_timeout_id w <= timer_id t)%nat) /\
    (forall h fn, In (TimerCall h fn) tr ->
       (exists t, In t (timers w) /\ timer_id t = h /\ timer_fn t = fn) \/
       (next_timeout_id w <= h)%nat).

(** Shown, hidden before the show animation has ended, shown again. *)
Definition toggled_twice : list Event :=
  [ Update (undo_props true None); Update (undo_props false None);
    Update (undo_props true None); AnimationEnd true ].

Definition after_toggled_twice : World :=
  mkWorld (undo_props true None) (Exactly 1) None (Some 1)
    [ mkTimer 1 1 (Num 6000) ] 2
    [ ClearTimeout None; TimingStart 1 200;
      ClearTimeout None; SetValue 0; SetTimeout 0 1 (Num 6000);
      ClearTimeout (Some 0); TimingStart 1 200;
      SetTimeout 1 1 (Num 6000) ]
    true.

Definition no_timer_effects (tr : list Effect) : bool :=
  forallb (fun e => negb (timer_effect e)) tr.

Definition no_timer_or_animation_effects (tr : list Effect) : bool :=
  forallb (fun e => negb (timer_effect e || animation_effect e)) tr.

(** What may follow a show: the animation ends, the parent renders
    again, the user presses the action, the parent removes the snackbar. *)
Definition lingering : list Event :=
  [ AnimationEnd true; Update (undo_props true (Some Infinity));
    PressAction; Unmount ].

(** Shown, then unmounted before the show animation has ended. *)
Definition unmounted_mid_show : World :=
  mkWorld (undo_props true None) (Exactly 0) (Some show_animation) None
    [] 0 [ ClearTimeout None; TimingStart 1 200; ClearTimeout None ] false.

(** How many effects of a kind a stretch of the log has. *)
Definition is_SetTimeout (e : Effect) : bool :=
  match e with
  | SetTimeout _ _ _ => true
  | _ => false
  end.

Definition is_TimerCall (e : Effect) : bool :=
  match e with
  | TimerCall _ _ => true
  | _ => false
  end.

Definition count_effects (f : Effect -> bool) (tr : list Effect) : nat :=
  List.length (filter f tr).

(** 1 while an animation runs on the progress value, 0 otherwise. *)
Definition running (w : World) : nat :=
  match scale_animation w with
  | Some _ => 1%nat
  | None => 0%nat
  end.

(** The show animation under way, and the snackbar shown with its timer
    pending, for a caller that left [duration] out. *)
Definition mid_show : World :=
  mkWorld (undo_props true None) (Exactly 0) (Some show_animation) None
    [] 0 [ ClearTimeout None; TimingStart 1 200 ] true.

Definition shown_with_timer : World :=
  mkWorld (undo_props true None) (Exactly 1) None (Some 0)
    [ mkTimer 0 1 (Num 6000) ] 1
    [ ClearTimeout None; TimingStart 1 200; SetTimeout 0 1 (Num 6000) ]
    true.

(** The same caller with another [onDismiss] (callback 5) and another
    [duration]. *)
Definition other_props (v : bool) (d : number) : Props :=
  createProps v (Some undo) (Some d) 5 "Deleted" None plain_theme.

(** Shown twice as in [toggled_twice], then hidden again. *)
Definition hidden_again : World :=
  mkWorld (undo_props false None) (Exactly 0) None (Some 1) [] 2
    [ ClearTimeout None; TimingStart 1 200;
      ClearTimeout None; SetValue 0; SetTimeout 0 1 (Num 6000);
      ClearTimeout (Some 0); TimingStart 1 200;
      SetTimeout 1 1 (Num 6000);
      ClearTimeout (Some 1); SetValue 0 ]
    true.

(** ... then rendered again, still hidden, and its action pressed. *)
Definition pressed_while_hidden : World :=
  mkWorld (other_props false (Num 1500)) (Exactly 0) None (Some 1) [] 2
    (log hidden_again ++ [ Call 2 0; Call 5 0 ]) true.

(* ------------------------------------------------------------------ *)
(** ** Lemmas on the pieces *)

Lemma number_strict_neq_Infinity (d : number) :
  number_strict_neq d DURATION_INDEFINITE = false <-> d = Infinity.
Proof.
  destruct d; cbn; split; intro H; try reflexivity; discriminate.
Qed.

Lemma remove_timer_single (t : Timer) :
  remove_timer (timer_id t) [t] = [].
Proof.
  unfold remove_timer; cbn. now rewrite Nat.eqb_refl.
Qed.

Lemma find_timer_single (h : TimeoutID) (t t' : Timer) :
  find_timer h [t] = Some t' -> t' = t /\ timer_id t = h.
Proof.
  unfold find_timer; cbn.
  destruct (Nat.eqb_spec (timer_id t) h); intro H;
    [injection H as <-; split; [reflexivity | assumption] | discriminate].
Qed.

Lemma Inv_mount (p : Props) : Inv (mount p).
Proof.
  constructor; cbn; auto; try discriminate; try contradiction.
Qed.

(** Clearing the stored handle empties the queue of a world in which the
    only timer that can be pending is the one under that handle. *)
Lemma clear_stored_handle (h : option TimeoutID) (ts : list Timer) :
  (ts = [] \/ exists t, ts = [t] /\ h = Some (timer_id t)) ->
  match h with Some id => remove_timer id ts | None => ts end = [].
Proof.
  intros [-> | [t [-> ->]]].
  - now destruct h.
  - apply remove_timer_single.
Qed.

Lemma exec_clearTimeout (h : option TimeoutID) (w : World) :
  exec (clearTimeout h) w =
  with_timers (match h with Some id => remove_timer id (timers w)
                          | None => timers w end)
              (next_timeout_id w)
              (with_log (log w ++ [ClearTimeout h]) w).
Proof.
  destruct w, h; reflexivity.
Qed.

(** The completion callback, by cases on [duration]. *)
Lemma exec_show_onEnd_indefinite (w : World) :
  duration (props w) = Infinity -> exec _show_onEnd w = w.
Proof.
  intro H. unfold exec, _show_onEnd, bind, this_props; cbn.
  rewrite H; reflexivity.
Qed.

Lemma exec_show_onEnd_finite (w : World) :
  duration (props w) <> Infinity ->
  exec _show_onEnd w =
  mkWorld (props w) (scale_value w) (scale_animation w)
          (Some (next_timeout_id w))
          (timers w ++ [mkTimer (next_timeout_id w) (onDismiss (props w))
                                (duration (props w))])
          (S (next_timeout_id w))
          (log w ++ [SetTimeout (next_timeout_id w) (onDismiss (props w))
                                (duration (props w))])
          (mounted w).
Proof.
  intro H. unfold exec, _show_onEnd, bind, this_props; cbn.
  destruct (number_strict_neq (duration (props w)) DURATION_INDEFINITE) eqn:E.
  - reflexivity.
  - apply number_strict_neq_Infinity in E. contradiction.
Qed.

Lemma Inv_show_onEnd (w : World) :
  Inv w -> timers w = [] -> scale_animation w = None ->
  Inv (exec _show_onEnd w).
Proof.
  intros I Ht Ha.
  destruct (number_strict_neq (duration (props w)) DURATION_INDEFINITE) eqn:E.
  - rewrite exec_show_onEnd_finite
      by (intro D; apply number_strict_neq_Infinity in D; congruence).
    destruct I as [_ _ _ _ Ihid].
    constructor; cbn; rewrite ?Ht; cbn.
    + right. eexists; split; reflexivity.
    + intros t [<- | []]; cbn; lia.
    + intros h [= <-]; lia.
    + intros a Ea; congruence.
    + exact Ihid.
  - apply number_strict_neq_Infinity in E.
    now rewrite exec_show_onEnd_indefinite.
Qed.

(* ------------------------------------------------------------------ *)
(** ** The three outcomes of a re-render *)

Lemma step_unchanged (w : World) (p' : Props) :
  mounted w = true -> visible p' = visible (props w) ->
  step w (Update p') = Some (with_props p' w).
Proof.
  intros Hm Hv. unfold step. rewrite Hm.
  unfold exec, componentDidUpdate, bind, this_props; cbn.
  rewrite Hv, Bool.eqb_reflx; reflexivity.
Qed.

Lemma step_show (w : World) (p' : Props) :
  mounted w = true -> visible (props w) = false -> visible p' = true ->
  scale_animation w = None ->
  step w (Update p') =
  Some (mkWorld p' (scale_value w)
          (Some (mkAnimation (scale_value w) 1 SNACKBAR_ANIMATION_DURATION
                             show_onEnd))
          (_hideTimeout w) (cleared w) (next_timeout_id w)
          (log w ++ [ClearTimeout (_hideTimeout w);
                     TimingStart 1 SNACKBAR_ANIMATION_DURATION])
          true).
Proof.
  intros Hm Hv Hv' Ha. unfold step. rewrite Hm.
  destruct w as [p v a h ts n l m]; cbn in *; subst.
  destruct p as [vis ? ? ? ? ? ?], p' as [vis' ? ? ? ? ? ?]; cbn in *; subst.
  unfold cleared; destruct h; cbn; rewrite <- app_assoc; reflexivity.
Qed.

Lemma step_hide (w : World) (p' : Props) :
  mounted w = true -> visible (props w) = true -> visible p' = false ->
  step w (Update p') =
  Some (with_scale (Exactly 0) None (exec stop_running (hiding w p'))).
Proof.
  intros Hm Hv Hv'. unfold step. rewrite Hm.
  destruct w as [p v a h ts n l m]; cbn in *; subst.
  destruct p as [vis ? ? ? ? ? ?], p' as [vis' ? ? ? ? ? ?]; cbn in *; subst.
  unfold exec, componentDidUpdate, _toggle, _hide, setValue, bind,
    this_props, hiding, cleared; cbn.
  unfold stop_running, invoke_onEnd, _show_onEnd, bind, this_props.
  destruct h, a as [[? ? ? []]|]; cbn; rewrite <- app_assoc; cbn;
    try destruct (number_strict_neq _ _); reflexivity.
Qed.

Lemma exec_stop_running_idle (w : World) :
  scale_animation w = None -> exec stop_running w = w.
Proof.
  intro H. unfold exec, stop_running. now rewrite H.
Qed.

Lemma exec_stop_running_show (w : World) :
  scale_animation w = Some show_animation ->
  exec stop_running w =
  exec _show_onEnd (with_scale (Between (Exactly 0) 1) None w).
Proof.
  intro H. unfold exec, stop_running. now rewrite H.
Qed.

(* ------------------------------------------------------------------ *)
(** ** The invariant is kept by every event *)

Lemma show_onEnd_with_scale (v : Progress) (a : option Animation)
    (w : World) :
  with_scale v a (exec _show_onEnd w) = exec _show_onEnd (with_scale v a w).
Proof.
  unfold exec, _show_onEnd, bind, this_props; cbn.
  destruct (number_strict_neq (duration (props w)) DURATION_INDEFINITE);
    reflexivity.
Qed.

Lemma show_onEnd_scale (w : World) :
  scale_value (exec _show_onEnd w) = scale_value w /\
  scale_animation (exec _show_onEnd w) = scale_animation w.
Proof.
  unfold exec, _show_onEnd, bind, this_props; cbn.
  destruct (number_strict_neq (duration (props w)) DURATION_INDEFINITE);
    split; reflexivity.
Qed.

Lemma cleared_nil (w : World) : Inv w -> cleared w = [].
Proof.
  intros I. unfold cleared.
  apply (clear_stored_handle (_hideTimeout w) (timers w)), (inv_timers w I).
Qed.

Lemma hidden_idle (w : World) :
  Inv w -> visible (props w) = false -> scale_animation w = None.
Proof.
  intros I Hv. destruct (scale_animation w) as [a|] eqn:E; [|reflexivity].
  destruct (inv_anim w I a E) as (_ & _ & Hv'). congruence.
Qed.

Lemma exec_componentWillUnmount (w : World) :
  exec componentWillUnmount w =
  with_timers (cleared w) (next_timeout_id w)
              (with_log (log w ++ [ClearTimeout (_hideTimeout w)]) w).
Proof.
  unfold componentWillUnmount, cleared, exec, bind, this_hideTimeout; cbn.
  destruct w as [? ? ? [h|] ? ? ? ?]; reflexivity.
Qed.

Lemma Inv_update (w w' : World) (p' : Props) :
  Inv w -> step w (Update p') = Some w' -> Inv w'.
Proof.
  intros I Hs.
  destruct (mounted w) eqn:Hm; [| cbn in Hs; rewrite Hm in Hs; discriminate].
  destruct (Bool.eqb (visible p') (visible (props w))) eqn:Eq.
  - (* same flag *)
    apply Bool.eqb_prop in Eq.
    rewrite (step_unchanged w p' Hm Eq) in Hs. injection Hs as <-.
    destruct I as [I1 I2 I3 I4 I5].
    constructor; cbn; auto.
    + intros a Ea. destruct (I4 a Ea) as (? & ? & ?).
      repeat split; congruence.
    + intro Hv. apply I5. congruence.
  - apply Bool.eqb_false_iff in Eq.
    destruct (visible (props w)) eqn:Hv.
    + (* true -> false *)
      assert (Hv' : visible p' = false) by (destruct (visible p'); congruence).
      rewrite (step_hide w p' Hm Hv Hv') in Hs. injection Hs as <-.
      assert (Hbase : Inv (with_scale (Exactly 0) None (hiding w p'))).
      { pose proof (cleared_nil w I) as Hc.
        destruct I as [I1 I2 I3 I4 I5].
        constructor; cbn; rewrite ?Hc; auto; try contradiction.
        intros a Ea; discriminate. }
      destruct (scale_animation w) as [a|] eqn:Ea.
      * destruct (inv_anim w I a Ea) as (-> & _ & _).
        rewrite exec_stop_running_show by exact Ea.
        rewrite show_onEnd_with_scale.
        apply Inv_show_onEnd; cbn; auto using cleared_nil.
      * rewrite exec_stop_running_idle by exact Ea. exact Hbase.
    + (* false -> true *)
      assert (Hv' : visible p' = true) by (destruct (visible p'); congruence).
      rewrite (step_show w p' Hm Hv Hv' (hidden_idle w I Hv)) in Hs.
      injection Hs as <-.
      pose proof (cleared_nil w I) as Hc.
      pose proof (inv_hidden w I Hv) as H0.
      destruct I as [I1 I2 I3 I4 I5].
      constructor; cbn; rewrite ?Hc; auto; try contradiction;
        try congruence.
      intros a [= <-]. rewrite H0. repeat split; auto.
Qed.

Lemma Inv_step (w w' : World) (e : Event) :
  Inv w -> step w e = Some w' -> Inv w'.
Proof.
  intros I Hs. destruct e as [p' | fin | h | | ].
  - eapply Inv_update; eauto.
  - (* the animation ends *)
    cbn in Hs. destruct (scale_animation w) as [a|] eqn:Ea; [|discriminate].
    destruct (fin || negb (mounted w)); [|discriminate].
    injection Hs as <-.
    destruct (inv_anim w I a Ea) as (-> & Ht & Hv). cbn.
    apply Inv_show_onEnd; cbn; auto.
    destruct I as [I1 I2 I3 I4 I5].
    constructor; cbn; auto; [discriminate | congruence].
  - (* a timer fires *)
    cbn in Hs. destruct (find_timer h (timers w)) as [t|] eqn:Ef; [|discriminate].
    injection Hs as <-.
    assert (Hr : remove_timer h (timers w) = []).
    { destruct (inv_timers w I) as [E | (t0 & E & _)]; rewrite E in *.
      - discriminate.
      - apply find_timer_single in Ef as (_ & <-). apply remove_timer_single. }
    destruct I as [I1 I2 I3 I4 I5].
    constructor; cbn; rewrite ?Hr; auto; try contradiction.
    intros a Ea. destruct (I4 a Ea) as (? & ? & ?). auto.
  - (* the action button *)
    cbn in Hs. destruct (mounted w); [|discriminate].
    destruct (action (props w)); [|discriminate].
    injection Hs as <-.
    destruct I as [I1 I2 I3 I4 I5]. constructor; cbn; auto.
  - (* unmount *)
    cbn in Hs. destruct (mounted w); [|discriminate].
    injection Hs as <-.
    pose proof (cleared_nil w I) as Hc.
    rewrite exec_componentWillUnmount.
    destruct I as [I1 I2 I3 I4 I5].
    constructor; cbn; rewrite ?Hc; auto; try contradiction.
    intros a Ea. destruct (I4 a Ea) as (? & ? & ?). auto.
Qed.

Lemma Inv_run (es : list Event) (w w' : World) :
  Inv w -> run w es = Some w' -> Inv w'.
Proof.
  revert w; induction es as [|e es IH]; intros w I Hr; cbn in Hr.
  - now injection Hr as <-.
  - destruct (step w e) as [w1|] eqn:Es; [|discriminate].
    eapply IH; [eapply Inv_step; eauto | exact Hr].
Qed.

Lemma Inv_reachable (p : Props) (es : list Event) (w : World) :
  run (mount p) es = Some w -> Inv w.
Proof.
  apply Inv_run, Inv_mount.
Qed.

(* ------------------------------------------------------------------ *)
(** ** Rendering *)

Lemma ascii_toUpperCase_char_fixed (c : ascii) :
  ascii_toUpperCase_char c = c <-> is_lower c = false.
Proof.
  unfold ascii_toUpperCase_char.
  destruct (is_lower c) eqn:E; split; intro H; try reflexivity;
    try discriminate.
  exfalso. revert E H.
  destruct c as [[] [] [] [] [] [] [] []]; vm_compute; congruence.
Qed.

Lemma ascii_toUpperCase_fixed (s : string) :
  ascii_toUpperCase s = s <-> has_lower s = false.
Proof.
  induction s as [|c s IH]; cbn.
  - split; reflexivity.
  - rewrite Bool.orb_false_iff, <- IH, <- ascii_toUpperCase_char_fixed.
    split.
    + intros [= H1 H2]. split; assumption.
    + intros [H1 H2]. now rewrite H1, H2.
Qed.

(** C10. When an action is supplied, the child of the button is not
    [action.label] as the caller wrote it but the result of
    [action.label.toUpperCase()]: whatever the builtin is, the button
    shows what it makes of the label.  For a label of ASCII characters
    that is the label with a to z turned into A to Z, which is the label
    as written only when it has no lower-case letter. *)
Theorem action_label_uppercased (toUpperCase : string -> string)
    (p : Props) (a : Action) :
  action p = Some a ->
  exists b,
    button (render p) = Some b /\
    button_children b = UpperCased (label a) /\
    button_children b <> Verbatim (label a) /\
    shown toUpperCase (button_children b) = toUpperCase (label a) /\
    (agrees_on_ascii toUpperCase ->
     is_ascii (label a) = true ->
     shown toUpperCase (button_children b) = ascii_toUpperCase (label a) /\
     (shown toUpperCase (button_children b) = label a
      <-> has_lower (label a) = false)).
Proof.
  intro Ha. unfold render. rewrite Ha. cbn.
  eexists; split; [reflexivity|]. cbn.
  split; [reflexivity|]. split; [discriminate|]. split; [reflexivity|].
  intros Hb Hl. rewrite (Hb (label a) Hl).
  split; [reflexivity | apply ascii_toUpperCase_fixed].
Qed.

Lemma action_label_uppercased_witness :
  exists b,
    button (render (undo_props true None)) = Some b /\
    button_children b = UpperCased "Undo" /\
    shown ascii_toUpperCase (button_children b) = "UNDO".
Proof.
  destruct (action_label_uppercased ascii_toUpperCase
              (undo_props true None) undo eq_refl)
    as (b & H1 & H2 & _ & _ & H3).
  exists b. split; [exact H1|]. split; [exact H2|].
  exact (proj1 (H3 (fun s _ => eq_refl) eq_refl)).
Defined.

(** C8, as stated, fails: a snackbar mounted visible and one mounted
    hidden hold the same progress value and render different opacities,
    the opacity entry is a plain number and not a binding to the animated
    value, a hidden snackbar whose caller passes an opacity in [style]
    does not render with zero opacity, and a snackbar whose caller passes
    a transform in [style] does not render with its scale bound to the
    progress value. *)
Lemma opacity_not_driven_by_progress :
  scale_value (mount shown_props) = scale_value (mount hidden_props) /\
  flatten_get "opacity" (view_style (render (props (mount shown_props))))
    = Some (VNum 1) /\
  flatten_get "opacity" (view_style (render (props (mount hidden_props))))
    = Some (VNum 0) /\
  flatten_get "opacity" (view_style (render shown_props))
    <> Some (VAnimated state_scale) /\
  visible hidden_opaque_props = false /\
  flatten_get "opacity" (view_style (render hidden_opaque_props))
    = Some (VNum 1) /\
  flatten_get "transform" (view_style (render shown_scaled_props))
    = Some (VArray [ VObject "scale" (VNum 2) ]) /\
  flatten_get "transform" (view_style (render shown_scaled_props))
    <> Some bound_scale.
Proof.
  repeat split; try reflexivity; discriminate.
Qed.

(** C8, amended.  In every render the style the component computes for
    the view binds its scale transform to the component's animated value
    and sets its opacity to the number 1 when the [visible] prop is true
    and 0 when it is false, and the caller's [style] comes after it.  So
    the view is rendered with its scale bound to the animated value unless
    the caller's [style] sets a transform, and, unless the caller's
    [style] sets an opacity, with that opacity: zero exactly when
    [visible] is false. *)
Theorem view_style_sources (p : Props) :
  view_style (render p) =
    [ Some styles_wrapper; Some (own_view_style p); style p ] /\
  style_get "transform" (own_view_style p) = Some bound_scale /\
  style_get "opacity" (own_view_style p)
    = Some (VNum (if visible p then 1 else 0)) /\
  (caller_sets "transform" p = false ->
   flatten_get "transform" (view_style (render p)) = Some bound_scale) /\
  (caller_sets "opacity" p = false ->
   flatten_get "opacity" (view_style (render p))
     = Some (VNum (if visible p then 1 else 0)) /\
   (flatten_get "opacity" (view_style (render p)) = Some (VNum 0)
    <-> visible p = false)).
Proof.
  unfold caller_sets.
  split; [reflexivity|]. split; [reflexivity|]. split; [reflexivity|].
  split.
  - intro Ht. cbn. destruct (style p) as [s|]; [|reflexivity].
    destruct (style_get "transform" s); [discriminate | reflexivity].
  - intro Ho.
    assert (Hop : flatten_get "opacity" (view_style (render p))
                  = Some (VNum (if visible p then 1 else 0))).
    { cbn. destruct (style p) as [s|]; [|reflexivity].
      destruct (style_get "opacity" s); [discriminate | reflexivity]. }
    split; [exact Hop|]. rewrite Hop. split.
    + destruct (visible p); [discriminate | reflexivity].
    + intros ->. reflexivity.
Qed.

Lemma view_style_sources_witness :
  flatten_get "transform" (view_style (render hidden_opaque_props))
    = Some bound_scale /\
  flatten_get "opacity" (view_style (render shown_scaled_props))
    = Some (VNum 1) /\
  flatten_get "opacity" (view_style (render hidden_props))
    = Some (VNum 0).
Proof.
  split; [| split].
  - exact (proj1 (proj2 (proj2 (proj2
             (view_style_sources hidden_opaque_props)))) eq_refl).
  - exact (proj1 (proj2 (proj2 (proj2 (proj2
             (view_style_sources shown_scaled_props)))) eq_refl)).
  - exact (proj1 (proj2 (proj2 (proj2 (proj2
             (view_style_sources hidden_props)))) eq_refl)).
Defined.

(* ------------------------------------------------------------------ *)
(** ** What one event can do to the log and to the timer queue *)

Lemma In_remove_timer (h : TimeoutID) (t : Timer) (ts : list Timer) :
  In t (remove_timer h ts) -> In t ts /\ timer_id t <> h.
Proof.
  unfold remove_timer. rewrite filter_In. intros [Hin Hneq]. split; auto.
  intros E. rewrite E, Nat.eqb_refl in Hneq. discriminate.
Qed.

Lemma find_timer_In (h : TimeoutID) (t : Timer) (ts : list Timer) :
  find_timer h ts = Some t -> In t ts /\ timer_id t = h.
Proof.
  unfold find_timer. intro H. apply find_some in H as [Hin Heq].
  split; [assumption | now apply Nat.eqb_eq].
Qed.

Ltac log_suffix :=
  cbn; repeat rewrite <- app_assoc; cbn;
  first [ eexists; split; [reflexivity|]
        | exists []; split; [now rewrite app_nil_r|] ].

Ltac frame_rest :=
  cbn; repeat split;
  [ lia
  | let t := fresh "t" in let H := fresh "H" in
    intros t H; cbn in H;
    repeat match goal with
      | H : In _ (_ ++ _) |- _ => apply in_app_or in H as [H | H]
      | H : In _ (remove_timer _ _) |- _ =>
          apply In_remove_timer in H as [H _]
      | H : In _ (filter _ _) |- _ => apply filter_In in H as [H _]
      | H : In _ [_] |- _ => destruct H as [<- | []]
      end; cbn; auto
  | let H := fresh "H" in
    intros ? ? H; cbn in H; intuition discriminate ].

Lemma step_follows (w w' : World) (e : Event) :
  step w e = Some w' -> follows w w'.
Proof.
  unfold follows.
  destruct w as [p v a h ts n l m]. destruct e as [p' | fin | k | | ]; cbn.
  - destruct m; [|discriminate]. intros [= <-].
    unfold exec, componentDidUpdate, _toggle, _show, _hide, setValue,
      timing_start, stop_running, invoke_onEnd, _show_onEnd, bind,
      this_props; cbn.
    destruct p as [vis ? ? ? ? ? ?], p' as [vis' ? d' ? ? ? ?].
    destruct vis, vis', h, a as [[? ? ? []]|]; cbn;
      try destruct (number_strict_neq d' _); cbn;
      log_suffix; frame_rest.
  - destruct a as [[? ? ? []]|]; [|discriminate].
    unfold exec, _show_onEnd, bind, this_props.
    destruct fin, m; cbn; try discriminate; intros [= <-];
      destruct (number_strict_neq (duration p) _); cbn;
      log_suffix; frame_rest.
  - destruct (find _ ts) as [t|] eqn:Ef; [|discriminate].
    change (find_timer k ts = Some t) in Ef.
    intros [= <-]. log_suffix. cbn. repeat split.
    + lia.
    + intros t0 H. apply In_remove_timer in H as [H _]. auto.
    + intros h0 fn [[= <- <-] | []].
      apply find_timer_In in Ef as [Hin Hid]. eauto.
  - destruct m; [|discriminate].
    destruct (action p); [|discriminate]. intros [= <-].
    log_suffix; frame_rest.
  - destruct m; [|discriminate]. intros [= <-].
    unfold exec, componentWillUnmount, bind, this_hideTimeout; cbn.
    destruct h; log_suffix; frame_rest.
Qed.

Lemma follows_refl (w : World) : follows w w.
Proof.
  exists []. rewrite app_nil_r. repeat split; auto. intros ? ? [].
Qed.

Lemma follows_trans (w1 w2 w3 : World) :
  follows w1 w2 -> follows w2 w3 -> follows w1 w3.
Proof.
  intros (tr1 & L1 & N1 & T1 & F1) (tr2 & L2 & N2 & T2 & F2).
  exists (tr1 ++ tr2)%list. repeat split.
  - now rewrite L2, L1, app_assoc.
  - lia.
  - intros t H. destruct (T2 t H) as [H' | H']; [auto | right; lia].
  - intros h fn H. apply in_app_or in H as [H | H]; [auto|].
    destruct (F2 h fn H) as [(t & Hin & <- & <-) | H']; [|right; lia].
    destruct (T1 t Hin) as [H' | H']; eauto.
Qed.

Lemma run_follows (es : list Event) (w w' : World) :
  run w es = Some w' -> follows w w'.
Proof.
  revert w; induction es as [|e es IH]; intros w Hr; cbn in Hr.
  - injection Hr as <-. apply follows_refl.
  - destruct (step w e) as [w1|] eqn:Es; [|discriminate].
    eapply follows_trans; [eapply step_follows; eauto | auto].
Qed.

(** Handles are not given out twice: a handle the host has already used
    and that is not pending will not go off, whatever happens. *)
Lemma spent_handle_silent (h : TimeoutID) (es : list Event) (w w' : World) :
  (h < next_timeout_id w)%nat ->
  (forall t, In t (timers w) -> timer_id t <> h) ->
  run w es = Some w' ->
  exists tr, log w' = (log w ++ tr)%list /\
             forall fn, ~ In (TimerCall h fn) tr.
Proof.
  intros Hlt Hno Hr.
  destruct (run_follows es w w' Hr) as (tr & L & _ & _ & F).
  exists tr. split; [exact L|].
  intros fn Hin. destruct (F h fn Hin) as [(t & Ht & Hid & _) | Hge].
  - exact (Hno t Ht Hid).
  - lia.
Qed.

(* ------------------------------------------------------------------ *)
(** ** The transitions *)

(** The world a show transition leads to. *)
Lemma show_outcome (p0 : Props) (es : list Event) (w : World) (p' : Props) :
  run (mount p0) es = Some w ->
  mounted w = true ->
  visible (props w) = false ->
  visible p' = true ->
  step w (Update p') =
  Some (mkWorld p' (Exactly 0) (Some show_animation) (_hideTimeout w) []
          (next_timeout_id w)
          (log w ++ [ClearTimeout (_hideTimeout w); TimingStart 1 200])
          true).
Proof.
  intros Hr Hm Hv Hv'.
  pose proof (Inv_reachable p0 es w Hr) as I.
  rewrite (step_show w p' Hm Hv Hv' (hidden_idle w I Hv)).
  rewrite (inv_hidden w I Hv), (cleared_nil w I). reflexivity.
Qed.

(** C1. When [visible] goes from false to true, the component clears the
    stored timer handle, which leaves no timer pending, and then starts a
    timing animation of the progress value from 0 to 1 lasting 200 ms.
    When that animation has run to its end: if [duration] is the
    indefinite sentinel nothing more happens; otherwise one timer of
    length [duration] is scheduled for [onDismiss], its handle is stored,
    and once the timer has gone off, calling [onDismiss], it is pending no
    more and never goes off again. *)
Theorem show_transition (p0 : Props) (es : list Event) (w : World)
    (p' : Props) :
  run (mount p0) es = Some w ->
  mounted w = true ->
  visible (props w) = false ->
  visible p' = true ->
  exists w1,
    step w (Update p') = Some w1 /\
    log w1 = (log w ++ [ClearTimeout (_hideTimeout w);
                        TimingStart 1 200])%list /\
    timers w1 = [] /\
    scale_animation w1 = Some (mkAnimation (Exactly 0) 1 200 show_onEnd) /\
    exists w2,
      step w1 (AnimationEnd true) = Some w2 /\
      scale_value w2 = Exactly 1 /\
      scale_animation w2 = None /\
      (duration p' = DURATION_INDEFINITE ->
         log w2 = log w1 /\ timers w2 = []) /\
      (duration p' <> DURATION_INDEFINITE ->
         let h := next_timeout_id w in
         log w2 = (log w1 ++ [SetTimeout h (onDismiss p') (duration p')])%list
         /\ timers w2 = [mkTimer h (onDismiss p') (duration p')]
         /\ _hideTimeout w2 = Some h
         /\ exists w3,
              step w2 (TimerFire h) = Some w3 /\
              log w3 = (log w2 ++ [TimerCall h (onDismiss p')])%list /\
              timers w3 = [] /\
              forall es' w4, run w3 es' = Some w4 ->
                exists tr, log w4 = (log w3 ++ tr)%list /\
                           forall fn, ~ In (TimerCall h fn) tr).
Proof.
  intros Hr Hm Hv Hv'.
  rewrite (show_outcome p0 es w p' Hr Hm Hv Hv').
  eexists; split; [reflexivity|]. cbn.
  repeat (split; [reflexivity|]).
  match goal with
  | |- context [exec _show_onEnd ?x] => set (w1' := x)
  end.
  eexists; split; [reflexivity|].
  assert (Hs : scale_value (exec _show_onEnd w1') = Exactly 1 /\
               scale_animation (exec _show_onEnd w1') = None).
  { destruct (show_onEnd_scale w1') as [-> ->]. split; reflexivity. }
  destruct Hs as [Hs1 Hs2].
  repeat split; auto.
  - rewrite exec_show_onEnd_indefinite by assumption. reflexivity.
  - rewrite exec_show_onEnd_indefinite by assumption. reflexivity.
  - rewrite exec_show_onEnd_finite by assumption. reflexivity.
  - rewrite exec_show_onEnd_finite by assumption. reflexivity.
  - rewrite exec_show_onEnd_finite by assumption. reflexivity.
  - rewrite exec_show_onEnd_finite by assumption.
    unfold step, find_timer; cbn. rewrite Nat.eqb_refl.
    eexists; split; [reflexivity|]. cbn.
    unfold remove_timer; cbn. rewrite ?Nat.eqb_refl; cbn.
    repeat split; auto.
    intros es' w4 Hr4.
    apply (spent_handle_silent (next_timeout_id w)) in Hr4; cbn; auto.
Qed.

Lemma show_transition_witness :
  exists w1,
    step (mount (undo_props false (Some DURATION_SHORT)))
         (Update (undo_props true (Some DURATION_SHORT))) = Some w1 /\
    timers w1 = [] /\
    exists w2,
      step w1 (AnimationEnd true) = Some w2 /\
      timers w2 = [mkTimer 0 1 (Num 4000)].
Proof.
  destruct (show_transition (undo_props false (Some DURATION_SHORT)) []
              (mount (undo_props false (Some DURATION_SHORT)))
              (undo_props true (Some DURATION_SHORT))
              eq_refl eq_refl eq_refl eq_refl)
    as (w1 & H1 & _ & H2 & _ & w2 & H3 & _ & _ & _ & H4).
  exists w1. repeat split; [exact H1 | exact H2 |].
  exists w2. split; [exact H3|].
  apply H4. discriminate.
Defined.

(** The world a hide transition leads to. *)
Lemma hide_outcome (p0 : Props) (es : list Event) (w : World)
    (p' : Props) :
  run (mount p0) es = Some w ->
  mounted w = true ->
  visible (props w) = true ->
  visible p' = false ->
  exists w' tr,
    step w (Update p') = Some w' /\
    log w' = (log w ++ ClearTimeout (_hideTimeout w) :: SetValue 0 :: tr)%list
    /\ forallb (fun e => negb (is_TimingStart e)) tr = true
    /\ (forall t, In t (timers w) ->
          _hideTimeout w = Some (timer_id t) /\
          find_timer (timer_id t) (timers w') = None)
    /\ scale_value w' = Exactly 0
    /\ scale_animation w' = None
    /\ (scale_animation w = None -> tr = [] /\ timers w' = []).
Proof.
  intros Hr Hm Hv Hv'.
  pose proof (Inv_reachable p0 es w Hr) as I.
  pose proof (cleared_nil w I) as Hc.
  assert (Hold : forall t, In t (timers w) ->
            _hideTimeout w = Some (timer_id t) /\
            (timer_id t < next_timeout_id w)%nat).
  { intros t Ht. split; [|exact (inv_fresh w I t Ht)].
    destruct (inv_timers w I) as [E | (t0 & E & Eh)]; rewrite E in Ht.
    - destruct Ht.
    - destruct Ht as [<- | []]. exact Eh. }
  rewrite (step_hide w p' Hm Hv Hv').
  destruct (scale_animation w) as [a|] eqn:Ea.
  - destruct (inv_anim w I a Ea) as (-> & _ & _).
    rewrite exec_stop_running_show by exact Ea.
    rewrite show_onEnd_with_scale.
    destruct (number_strict_neq (duration p') DURATION_INDEFINITE) eqn:Ed.
    + rewrite exec_show_onEnd_finite
        by (cbn; intro D; apply number_strict_neq_Infinity in D; congruence).
      eexists. exists [SetTimeout (next_timeout_id w) (onDismiss p')
                                  (duration p')].
      split; [reflexivity|]. unfold hiding; cbn. rewrite Hc, <- app_assoc.
      cbn. repeat split; auto; try discriminate.
      * apply (Hold t H).
      * unfold find_timer; cbn.
        destruct (Nat.eqb_spec (next_timeout_id w) (timer_id t)) as [E|];
          [|reflexivity].
        destruct (Hold t H) as [_ Hlt]. lia.
    + apply number_strict_neq_Infinity in Ed.
      rewrite exec_show_onEnd_indefinite by exact Ed.
      eexists. exists []. split; [reflexivity|].
      unfold hiding; cbn. rewrite Hc.
      repeat split; auto; try discriminate. apply (Hold t H).
  - rewrite exec_stop_running_idle by exact Ea.
    eexists. exists []. split; [reflexivity|].
    unfold hiding; cbn. rewrite Hc.
    repeat split; auto. apply (Hold t H).
Qed.

(** C3. When [visible] goes from true to false, the component clears the
    stored timer handle, so that no timer pending before is pending after,
    and then sets the progress value to 0 at once: the value rests at 0
    when the update is over, and no animation was started or is running.
    If no animation was running, nothing else happens. *)
Theorem hide_transition (p0 : Props) (es : list Event) (w : World)
    (p' : Props) :
  run (mount p0) es = Some w ->
  mounted w = true ->
  visible (props w) = true ->
  visible p' = false ->
  exists w' tr,
    step w (Update p') = Some w' /\
    log w' = (log w ++ ClearTimeout (_hideTimeout w) :: SetValue 0 :: tr)%list
    /\ forallb (fun e => negb (is_TimingStart e)) tr = true
    /\ (forall t, In t (timers w) ->
          _hideTimeout w = Some (timer_id t) /\
          find_timer (timer_id t) (timers w') = None)
    /\ scale_value w' = Exactly 0
    /\ scale_animation w' = None
    /\ (scale_animation w = None -> tr = [] /\ timers w' = []).
Proof.
  apply hide_outcome.
Qed.

Lemma hide_transition_witness :
  exists w',
    run (mount (undo_props false None))
        [Update (undo_props true None); AnimationEnd true;
         Update (undo_props false None)] = Some w' /\
    scale_value w' = Exactly 0 /\ timers w' = [].
Proof.
  destruct (hide_transition (undo_props false None)
              [Update (undo_props true None); AnimationEnd true]
              (mkWorld (undo_props true None) (Exactly 1) None (Some 0)
                 [mkTimer 0 1 (Num 6000)] 1
                 [ClearTimeout None; TimingStart 1 200;
                  SetTimeout 0 1 (Num 6000)] true)
              (undo_props false None)
              eq_refl eq_refl eq_refl eq_refl)
    as (w' & tr & H1 & _ & _ & _ & H2 & _ & H3).
  exists w'. split; [exact H1|]. split; [exact H2|].
  apply H3. reflexivity.
Defined.

(** C7. A re-render that leaves [visible] as it was changes the props and
    nothing else: the progress value, the animation on it, the stored
    handle, the timer queue and the log are what they were. *)
Theorem rerender_same_visible (w : World) (p' : Props) :
  mounted w = true ->
  visible p' = visible (props w) ->
  exists w',
    step w (Update p') = Some w' /\
    props w' = p' /\
    scale_value w' = scale_value w /\
    scale_animation w' = scale_animation w /\
    _hideTimeout w' = _hideTimeout w /\
    timers w' = timers w /\
    next_timeout_id w' = next_timeout_id w /\
    log w' = log w /\
    mounted w' = true.
Proof.
  intros Hm Hv. rewrite (step_unchanged w p' Hm Hv).
  eexists; split; [reflexivity|]. cbn. repeat split; auto.
Qed.

Lemma rerender_same_visible_witness :
  exists w',
    step (mount (undo_props true None))
         (Update (undo_props true (Some DURATION_SHORT))) = Some w' /\
    timers w' = [] /\ log w' = [].
Proof.
  destruct (rerender_same_visible (mount (undo_props true None))
              (undo_props true (Some DURATION_SHORT)) eq_refl eq_refl)
    as (w' & H1 & _ & _ & _ & _ & H2 & _ & H3 & _).
  exists w'. repeat split; assumption.
Defined.

(** C4. A press of the action button calls [action.onPress] and then
    [onDismiss], each once and without arguments, and changes nothing
    else: in particular not the progress value. *)
Theorem press_action (w : World) (a : Action) :
  mounted w = true ->
  action (props w) = Some a ->
  exists w',
    step w PressAction = Some w' /\
    log w' = (log w ++ [Call (onPress a) 0;
                        Call (onDismiss (props w)) 0])%list /\
    scale_value w' = scale_value w /\
    scale_animation w' = scale_animation w /\
    _hideTimeout w' = _hideTimeout w /\
    timers w' = timers w /\
    props w' = props w.
Proof.
  intros Hm Ha. unfold step. rewrite Hm. unfold render. rewrite Ha.
  eexists; split; [reflexivity|]. cbn.
  rewrite <- app_assoc. repeat split; reflexivity.
Qed.

Lemma press_action_witness :
  exists w',
    step (mount (undo_props true None)) PressAction = Some w' /\
    log w' = [Call 2 0; Call 1 0] /\
    scale_value w' = Exactly 0.
Proof.
  destruct (press_action (mount (undo_props true None)) undo
              eq_refl eq_refl)
    as (w' & H1 & H2 & H3 & _).
  exists w'. repeat split; assumption.
Defined.

(* ------------------------------------------------------------------ *)
(** ** One timer at most *)

(** C2. In every world an instance can reach, at most one timer is
    pending, and it is the one whose handle the component has stored.
    Every show or hide transition clears the stored handle before it makes
    any other call, so that no timer pending before the transition is
    pending after it. *)
Theorem one_timer_at_most (p0 : Props) (es : list Event) (w : World) :
  run (mount p0) es = Some w ->
  (List.length (timers w) <= 1)%nat /\
  (forall t, In t (timers w) -> _hideTimeout w = Some (timer_id t)) /\
  (forall p', mounted w = true -> visible p' <> visible (props w) ->
     exists w' tr,
       step w (Update p') = Some w' /\
       log w' = (log w ++ ClearTimeout (_hideTimeout w) :: tr)%list /\
       (forall t, In t (timers w) ->
          find_timer (timer_id t) (timers w') = None) /\
       (List.length (timers w') <= 1)%nat).
Proof.
  intro Hr. pose proof (Inv_reachable p0 es w Hr) as I.
  assert (Hlen : forall w0, Inv w0 -> (List.length (timers w0) <= 1)%nat).
  { intros w0 I0.
    destruct (inv_timers w0 I0) as [-> | (t & -> & _)]; cbn; lia. }
  assert (Hstored : forall t, In t (timers w) ->
                      _hideTimeout w = Some (timer_id t)).
  { intros t Ht.
    destruct (inv_timers w I) as [E | (t0 & E & Eh)]; rewrite E in Ht.
    - destruct Ht.
    - destruct Ht as [<- | []]. exact Eh. }
  repeat split; auto.
  intros p' Hm Hne.
  destruct (visible (props w)) eqn:Hv.
  - assert (Hv' : visible p' = false) by (destruct (visible p'); congruence).
    destruct (hide_outcome p0 es w p' Hr Hm Hv Hv')
      as (w' & tr & Hs & Hl & _ & Hgone & _).
    exists w', (SetValue 0 :: tr). repeat split; auto.
    + intros t Ht. apply (Hgone t Ht).
    + apply Hlen. eapply Inv_step; eauto.
  - assert (Hv' : visible p' = true) by (destruct (visible p'); congruence).
    rewrite (show_outcome p0 es w p' Hr Hm Hv Hv').
    eexists. exists [TimingStart 1 200]. split; [reflexivity|]. cbn.
    repeat split; auto.
Qed.

Lemma one_timer_at_most_witness :
  run (mount (undo_props false None)) toggled_twice
    = Some after_toggled_twice /\
  (List.length (timers after_toggled_twice) <= 1)%nat.
Proof.
  split; [reflexivity|].
  exact (proj1 (one_timer_at_most (undo_props false None) toggled_twice
                  after_toggled_twice eq_refl)).
Defined.

(* ------------------------------------------------------------------ *)
(** ** Runs in which no timer is ever scheduled *)

Lemma no_timer_effects_app (a b : list Effect) :
  no_timer_effects (a ++ b) = no_timer_effects a && no_timer_effects b.
Proof. apply forallb_app. Qed.

Lemma indefinite_step (w w' : World) (e : Event) :
  timers w = [] ->
  duration (props w) = DURATION_INDEFINITE ->
  keeps_indefinite e = true ->
  step w e = Some w' ->
  timers w' = [] /\
  duration (props w') = DURATION_INDEFINITE /\
  exists tr, log w' = (log w ++ tr)%list /\ no_timer_effects tr = true.
Proof.
  destruct w as [p v a h ts n l m]; cbn. intros -> Hd.
  destruct e as [p' | fin | k | | ]; cbn.
  - intro Hk. apply Bool.negb_true_iff, number_strict_neq_Infinity in Hk.
    destruct m; [|discriminate]. intros [= <-].
    unfold exec, componentDidUpdate, _toggle, _show, _hide, setValue,
      timing_start, stop_running, invoke_onEnd, _show_onEnd, bind,
      this_props; cbn.
    destruct p as [vis ? ? ? ? ? ?], p' as [vis' ? d' ? ? ? ?];
      cbn in Hd, Hk; subst.
    destruct vis, vis', h, a as [[? ? ? []]|]; cbn;
      repeat split; log_suffix; reflexivity.
  - intros _. destruct a as [[? ? ? []]|]; [|discriminate].
    unfold exec, _show_onEnd, bind, this_props.
    destruct fin, m; cbn; try discriminate; intros [= <-];
      rewrite Hd; cbn; repeat split; auto; log_suffix; reflexivity.
  - intros _. discriminate.
  - intros _. destruct m; [|discriminate].
    destruct (action p); [|discriminate]. intros [= <-].
    cbn. repeat split; auto. log_suffix; reflexivity.
  - intros _. destruct m; [|discriminate]. intros [= <-].
    unfold exec, componentWillUnmount, bind, this_hideTimeout; cbn.
    destruct h; cbn; repeat split; auto; log_suffix; reflexivity.
Qed.

Lemma indefinite_run (es : list Event) (w w' : World) :
  timers w = [] ->
  duration (props w) = DURATION_INDEFINITE ->
  forallb keeps_indefinite es = true ->
  run w es = Some w' ->
  timers w' = [] /\
  exists tr, log w' = (log w ++ tr)%list /\ no_timer_effects tr = true.
Proof.
  revert w; induction es as [|e es IH]; intros w Ht Hd Hk Hr; cbn in *.
  - injection Hr as <-. split; [exact Ht|].
    exists []. now rewrite app_nil_r.
  - apply Bool.andb_true_iff in Hk as [Hk1 Hk2].
    destruct (step w e) as [w1|] eqn:Es; [|discriminate].
    destruct (indefinite_step w w1 e Ht Hd Hk1 Es)
      as (Ht1 & Hd1 & tr1 & L1 & N1).
    destruct (IH w1 Ht1 Hd1 Hk2 Hr) as (Ht' & tr2 & L2 & N2).
    split; [exact Ht'|].
    exists (tr1 ++ tr2)%list. split.
    + now rewrite L2, L1, app_assoc.
    + now rewrite no_timer_effects_app, N1, N2.
Qed.

(** C6. After a show transition with [duration] the indefinite sentinel,
    and for as long as [duration] stays that, no timer is scheduled and no
    timer goes off, whatever else happens and however long it takes: the
    queue is empty in every world reached, and the log gains neither a
    [setTimeout] nor a call of [onDismiss] by a timer. *)
Theorem indefinite_never_schedules (p0 : Props) (es : list Event)
    (w : World) (p' : Props) (es' : list Event) (w' : World) :
  run (mount p0) es = Some w ->
  mounted w = true ->
  visible (props w) = false ->
  visible p' = true ->
  duration p' = DURATION_INDEFINITE ->
  forallb keeps_indefinite es' = true ->
  run w (Update p' :: es') = Some w' ->
  timers w' = [] /\
  exists tr, log w' = (log w ++ tr)%list /\ no_timer_effects tr = true.
Proof.
  intros Hr Hm Hv Hv' Hd Hk Hr'.
  cbn [run] in Hr'.
  rewrite (show_outcome p0 es w p' Hr Hm Hv Hv') in Hr'.
  apply indefinite_run in Hr' as (Ht' & tr & L & N); auto.
  split; [exact Ht'|].
  eexists. split.
  - rewrite L. cbn. rewrite <- app_assoc. reflexivity.
  - rewrite no_timer_effects_app, N. reflexivity.
Qed.

Lemma indefinite_never_schedules_witness :
  exists w',
    run (mount (undo_props false (Some Infinity)))
        (Update (undo_props true (Some Infinity)) :: lingering) = Some w' /\
    timers w' = [].
Proof.
  eexists. split; [reflexivity|].
  exact (proj1 (indefinite_never_schedules
                  (undo_props false (Some Infinity)) []
                  (mount (undo_props false (Some Infinity)))
                  (undo_props true (Some Infinity)) lingering
                  (mkWorld (undo_props true (Some Infinity)) (Exactly 1)
                     None None [] 0
                     [ ClearTimeout None; TimingStart 1 200;
                       Call 2 0; Call 1 0; ClearTimeout None ]
                     false)
                  eq_refl eq_refl eq_refl eq_refl eq_refl eq_refl eq_refl)).
Defined.

(* ------------------------------------------------------------------ *)
(** ** Mounted visible *)

Lemma mounted_visible_step (w w' : World) (e : Event) :
  visible (props w) = true ->
  scale_animation w = None ->
  timers w = [] ->
  keeps_visible true e = true ->
  step w e = Some w' ->
  visible (props w') = true /\
  scale_value w' = scale_value w /\
  scale_animation w' = None /\
  timers w' = [] /\
  exists tr, log w' = (log w ++ tr)%list /\
             no_timer_or_animation_effects tr = true.
Proof.
  destruct w as [p v a h ts n l m]; cbn. intros Hv -> ->.
  destruct e as [p' | fin | k | | ]; cbn.
  - intro Hk. apply Bool.eqb_prop in Hk.
    destruct m; [|discriminate]. intros [= <-].
    unfold exec, componentDidUpdate, bind, this_props; cbn.
    rewrite Hv, Hk; cbn. repeat split; auto. log_suffix; reflexivity.
  - discriminate.
  - discriminate.
  - intros _. destruct m; [|discriminate].
    destruct (action p); [|discriminate]. intros [= <-].
    cbn. repeat split; auto. log_suffix; reflexivity.
  - intros _. destruct m; [|discriminate]. intros [= <-].
    unfold exec, componentWillUnmount, bind, this_hideTimeout; cbn.
    destruct h; cbn; repeat split; auto; log_suffix; reflexivity.
Qed.

(** C9. An instance mounted with [visible] true runs no show transition:
    as long as no re-render changes [visible], the progress value rests
    at its initial 0, no animation is started, no timer is scheduled and
    none goes off.  Nothing but a change of [visible] between two renders
    starts a transition. *)
Theorem mounted_visible_never_shows (p : Props) (es : list Event)
    (w : World) :
  visible p = true ->
  forallb (keeps_visible true) es = true ->
  run (mount p) es = Some w ->
  scale_value w = Exactly 0 /\
  scale_animation w = None /\
  timers w = [] /\
  no_timer_or_animation_effects (log w) = true.
Proof.
  intros Hv Hk Hr.
  assert (G : forall es w0 w1,
            visible (props w0) = true -> scale_animation w0 = None ->
            timers w0 = [] ->
            no_timer_or_animation_effects (log w0) = true ->
            forallb (keeps_visible true) es = true ->
            run w0 es = Some w1 ->
            scale_value w1 = scale_value w0 /\ scale_animation w1 = None /\
            timers w1 = [] /\
            no_timer_or_animation_effects (log w1) = true).
  { clear. induction es as [|e es IH]; intros w0 w1 Hv Ha Ht Hl Hk Hr;
      cbn in *.
    - injection Hr as <-. auto.
    - apply Bool.andb_true_iff in Hk as [Hk1 Hk2].
      destruct (step w0 e) as [w2|] eqn:Es; [|discriminate].
      destruct (mounted_visible_step w0 w2 e Hv Ha Ht Hk1 Es)
        as (Hv2 & Hs2 & Ha2 & Ht2 & tr & L & N).
      destruct (IH w2 w1 Hv2 Ha2 Ht2) as (H1 & H2 & H3 & H4); auto.
      + rewrite L. unfold no_timer_or_animation_effects in *.
        now rewrite forallb_app, Hl, N.
      + repeat split; auto. congruence. }
  apply (G es (mount p) w); auto.
Qed.

Lemma mounted_visible_never_shows_witness :
  exists w,
    run (mount (undo_props true None))
        [ Update (undo_props true (Some DURATION_SHORT)); PressAction ]
      = Some w /\
    scale_value w = Exactly 0 /\ timers w = [].
Proof.
  eexists. split; [reflexivity|].
  destruct (mounted_visible_never_shows (undo_props true None)
              [ Update (undo_props true (Some DURATION_SHORT)); PressAction ]
              (mkWorld (undo_props true (Some DURATION_SHORT)) (Exactly 0)
                 None None [] 0 [ Call 2 0; Call 1 0 ] true)
              eq_refl eq_refl eq_refl)
    as (H1 & _ & H2 & _).
  split; assumption.
Defined.

(* ------------------------------------------------------------------ *)
(** ** Unmount *)

(** [componentWillUnmount] clears the stored handle, which leaves no timer
    pending. *)
Lemma unmount_clears_pending (p0 : Props) (es : list Event) (w : World) :
  run (mount p0) es = Some w ->
  mounted w = true ->
  exists w',
    step w Unmount = Some w' /\
    log w' = (log w ++ [ClearTimeout (_hideTimeout w)])%list /\
    timers w' = [] /\
    scale_animation w' = scale_animation w /\
    mounted w' = false.
Proof.
  intros Hr Hm. pose proof (Inv_reachable p0 es w Hr) as I.
  unfold step. rewrite Hm, exec_componentWillUnmount.
  eexists; split; [reflexivity|]. cbn.
  rewrite (cleared_nil w I). repeat split; reflexivity.
Qed.

(** Once unmounted with no animation running and no timer pending,
    nothing happens any more. *)
Lemma unmounted_idle_is_final (w w' : World) (es : list Event) :
  mounted w = false -> scale_animation w = None -> timers w = [] ->
  run w es = Some w' -> w' = w.
Proof.
  intros Hm Ha Ht. destruct es as [|e es]; cbn.
  - now intros [= <-].
  - destruct e; cbn; rewrite ?Hm, ?Ha, ?Ht; cbn; discriminate.
Qed.

(** So an instance that is unmounted while no show animation runs never
    calls [onDismiss] afterwards: the log stays as unmounting left it. *)
Lemma unmount_at_rest_is_silent (p0 : Props) (es : list Event)
    (w w1 w' : World) (es' : list Event) :
  run (mount p0) es = Some w ->
  mounted w = true ->
  scale_animation w = None ->
  step w Unmount = Some w1 ->
  run w1 es' = Some w' ->
  log w' = (log w ++ [ClearTimeout (_hideTimeout w)])%list.
Proof.
  intros Hr Hm Ha Hs Hr'.
  destruct (unmount_clears_pending p0 es w Hr Hm)
    as (w1' & Hs' & Hl & Ht & Ha' & Hm').
  rewrite Hs in Hs'. injection Hs' as <-.
  assert (E : w' = w1).
  { apply (unmounted_idle_is_final w1 w' es'); congruence. }
  now rewrite E.
Qed.

(** C5, on the code.  Unmounting does clear the stored handle, but an
    instance unmounted while its show animation runs has no timer to clear
    yet: the animation still ends, whether it runs to its end or is
    stopped by the host, its completion callback schedules the timer, and
    the timer calls [onDismiss] on the unmounted instance. *)
Theorem unmount_during_show_dismisses_later :
  run (mount (undo_props false None))
      [ Update (undo_props true None); Unmount ] = Some unmounted_mid_show /\
  mounted unmounted_mid_show = false /\
  timers unmounted_mid_show = [] /\
  (forall finished,
     exists w',
       run unmounted_mid_show [ AnimationEnd finished; TimerFire 0 ]
         = Some w' /\
       mounted w' = false /\
       log w' = (log unmounted_mid_show ++
                 [ SetTimeout 0 1 (Num 6000); TimerCall 0 1 ])%list).
Proof.
  repeat split.
  intros [|]; eexists; repeat split.
Qed.

(** A hide that interrupts the show animation stops it, and the
    completion callback, which does not look at how the animation ended,
    schedules the timer all the same. *)
Example hide_during_show :
  exists w,
    run (mount (undo_props false None))
        [ Update (undo_props true None); Update (undo_props false None) ]
      = Some w /\
    visible (props w) = false /\
    scale_value w = Exactly 0 /\
    timers w = [ mkTimer 0 1 (Num 6000) ] /\
    log w = [ ClearTimeout None; TimingStart 1 200;
              ClearTimeout None; SetValue 0; SetTimeout 0 1 (Num 6000) ].
Proof.
  eexists. repeat split.
Qed.

(* ------------------------------------------------------------------ *)
(** ** Further properties of the transitions *)

(** X1. A caller that leaves [duration] out gets [DURATION_LONG]: the
    timer scheduled when its show animation has ended has length 6000. *)
Theorem default_duration_is_long (p0 : Props) (es : list Event) (w : World)
    (a : option Action) (f : callback) (c : string) (st : option Style)
    (th : Theme) :
  run (mount p0) es = Some w ->
  mounted w = true ->
  visible (props w) = false ->
  exists w',
    run w [ Update (createProps true a None f c st th); AnimationEnd true ]
      = Some w' /\
    timers w' = [ mkTimer (next_timeout_id w) f (Num 6000) ].
Proof.
  intros Hr Hm Hv. cbn [run].
  rewrite (show_outcome p0 es w (createProps true a None f c st th)
             Hr Hm Hv eq_refl).
  cbn. eexists. split; reflexivity.
Qed.

Lemma default_duration_is_long_witness :
  exists w',
    run (mount hidden_props)
        [ Update (createProps true None None 1 "Saved" None plain_theme);
          AnimationEnd true ] = Some w' /\
    timers w' = [ mkTimer 0 1 (Num 6000) ].
Proof.
  exact (default_duration_is_long hidden_props [] (mount hidden_props)
           None 1 "Saved" None plain_theme eq_refl eq_refl eq_refl).
Defined.

(** X2. The completion callback of the show animation reads the props as
    they are when the animation ends: if the parent renders again while
    the animation runs, leaving [visible] true, it is the later
    [duration] that decides whether a timer is scheduled and how long it
    is, and the later [onDismiss] that the timer will call. *)
Theorem completion_reads_current_props (p0 : Props) (es : list Event)
    (w : World) (p' p'' : Props) :
  run (mount p0) es = Some w ->
  mounted w = true ->
  visible (props w) = false ->
  visible p' = true ->
  visible p'' = true ->
  exists w',
    run w [ Update p'; Update p''; AnimationEnd true ] = Some w' /\
    (duration p'' = DURATION_INDEFINITE -> timers w' = []) /\
    (duration p'' <> DURATION_INDEFINITE ->
       timers w' = [ mkTimer (next_timeout_id w) (onDismiss p'')
                             (duration p'') ]).
Proof.
  intros Hr Hm Hv Hv' Hv''. cbn [run].
  rewrite (show_outcome p0 es w p' Hr Hm Hv Hv').
  rewrite step_unchanged by (cbn; congruence).
  cbn. eexists. split; [reflexivity|]. split; intro Hd.
  - rewrite exec_show_onEnd_indefinite by exact Hd. reflexivity.
  - rewrite exec_show_onEnd_finite by exact Hd. reflexivity.
Qed.

Lemma completion_reads_current_props_witness :
  exists w',
    run (mount (undo_props false None))
        [ Update (undo_props true None);
          Update (other_props true (Num 1500)); AnimationEnd true ]
      = Some w' /\
    timers w' = [ mkTimer 0 5 (Num 1500) ].
Proof.
  destruct (completion_reads_current_props (undo_props false None) []
              (mount (undo_props false None)) (undo_props true None)
              (other_props true (Num 1500))
              eq_refl eq_refl eq_refl eq_refl eq_refl)
    as (w' & H1 & _ & H2).
  exists w'. split; [exact H1|]. apply H2. discriminate.
Defined.

(** X3. A pending timer keeps the function it was scheduled with: a
    re-render that leaves [visible] as it was, whatever [onDismiss] and
    [duration] it brings, does not touch the timer, and when the timer
    goes off it calls the function given to [setTimeout]. *)
Theorem timer_keeps_its_callback (w : World) (t : Timer) (p'' : Props) :
  mounted w = true ->
  timers w = [t] ->
  visible p'' = visible (props w) ->
  exists w',
    run w [ Update p''; TimerFire (timer_id t) ] = Some w' /\
    log w' = (log w ++ [ TimerCall (timer_id t) (timer_fn t) ])%list /\
    timers w' = [].
Proof.
  intros Hm Ht Hv. cbn [run].
  rewrite (step_unchanged w p'' Hm Hv).
  unfold step, find_timer, remove_timer; cbn.
  rewrite Ht; cbn. rewrite Nat.eqb_refl; cbn.
  eexists. repeat split.
Qed.

Lemma timer_keeps_its_callback_witness :
  exists w',
    run shown_with_timer
        [ Update (other_props true (Num 1500)); TimerFire 0 ] = Some w' /\
    log w' = (log shown_with_timer ++ [ TimerCall 0 1 ])%list /\
    timers w' = [].
Proof.
  exact (timer_keeps_its_callback shown_with_timer (mkTimer 0 1 (Num 6000))
           (other_props true (Num 1500)) eq_refl eq_refl eq_refl).
Defined.

(** X4. A press of the action button does not clear the pending timer:
    after the two calls of the press the timer is still pending, and when
    it goes off its function is called as well. *)
Theorem press_leaves_timer (w : World) (a : Action) (t : Timer) :
  mounted w = true ->
  action (props w) = Some a ->
  timers w = [t] ->
  exists w',
    run w [ PressAction; TimerFire (timer_id t) ] = Some w' /\
    log w' = (log w ++ [ Call (onPress a) 0; Call (onDismiss (props w)) 0;
                         TimerCall (timer_id t) (timer_fn t) ])%list.
Proof.
  intros Hm Ha Ht. unfold run, step. rewrite Hm. unfold render.
  rewrite Ha. cbn. unfold find_timer. rewrite Ht. cbn.
  rewrite Nat.eqb_refl. eexists. split; [reflexivity|]. cbn.
  now rewrite <- !app_assoc.
Qed.

Lemma press_leaves_timer_witness :
  exists w',
    run shown_with_timer [ PressAction; TimerFire 0 ] = Some w' /\
    log w' = (log shown_with_timer ++
              [ Call 2 0; Call 1 0; TimerCall 0 1 ])%list.
Proof.
  exact (press_leaves_timer shown_with_timer undo (mkTimer 0 1 (Num 6000))
           eq_refl eq_refl eq_refl).
Defined.

(** X5. A hide that comes while the show animation still runs stops the
    animation, and the completion callback runs all the same: with a
    [duration] other than the indefinite sentinel the snackbar ends up
    hidden, at progress 0, with a timer pending for [onDismiss], and that
    timer goes off on the hidden snackbar. *)
Theorem hide_interrupting_show (p0 : Props) (es : list Event) (w : World)
    (a : Animation) (p' : Props) :
  run (mount p0) es = Some w ->
  mounted w = true ->
  scale_animation w = Some a ->
  visible p' = false ->
  duration p' <> DURATION_INDEFINITE ->
  exists w' w'',
    step w (Update p') = Some w' /\
    visible (props w') = false /\
    scale_value w' = Exactly 0 /\
    scale_animation w' = None /\
    timers w' = [ mkTimer (next_timeout_id w) (onDismiss p')
                          (duration p') ] /\
    _hideTimeout w' = Some (next_timeout_id w) /\
    step w' (TimerFire (next_timeout_id w)) = Some w'' /\
    log w'' = (log w' ++ [ TimerCall (next_timeout_id w) (onDismiss p') ])%list.
Proof.
  intros Hr Hm Ha Hv' Hd.
  pose proof (Inv_reachable p0 es w Hr) as I.
  destruct (inv_anim w I a Ha) as (-> & _ & Hv).
  rewrite (step_hide w p' Hm Hv Hv').
  rewrite exec_stop_running_show by exact Ha.
  rewrite show_onEnd_with_scale.
  rewrite exec_show_onEnd_finite by exact Hd.
  unfold hiding; cbn. rewrite (cleared_nil w I).
  do 2 eexists. split; [reflexivity|]. cbn.
  split; [exact Hv'|]. repeat (split; [reflexivity|]).
  unfold step, find_timer, remove_timer; cbn. rewrite Nat.eqb_refl; cbn.
  split; reflexivity.
Qed.

Lemma hide_interrupting_show_witness :
  exists w' w'',
    step mid_show (Update (undo_props false None)) = Some w' /\
    visible (props w') = false /\
    timers w' = [ mkTimer 0 1 (Num 6000) ] /\
    step w' (TimerFire 0) = Some w'' /\
    log w'' = (log w' ++ [ TimerCall 0 1 ])%list.
Proof.
  destruct (hide_interrupting_show (undo_props false None)
              [ Update (undo_props true None) ] mid_show show_animation
              (undo_props false None) eq_refl eq_refl eq_refl eq_refl)
    as (w' & w'' & H1 & H2 & _ & _ & H3 & _ & H4 & H5).
  - discriminate.
  - exists w', w''. repeat split; assumption.
Defined.

(** X6. Whenever the [visible] prop is false, the progress value rests at
    0 and no animation runs on it. *)
Theorem hidden_rests_at_zero (p0 : Props) (es : list Event) (w : World) :
  run (mount p0) es = Some w ->
  visible (props w) = false ->
  scale_value w = Exactly 0 /\ scale_animation w = None.
Proof.
  intros Hr Hv. pose proof (Inv_reachable p0 es w Hr) as I.
  split; [exact (inv_hidden w I Hv) | exact (hidden_idle w I Hv)].
Qed.

Lemma hidden_rests_at_zero_witness :
  run (mount (undo_props false None))
      (toggled_twice ++ [ Update (undo_props false None) ])
    = Some hidden_again /\
  scale_value hidden_again = Exactly 0 /\
  scale_animation hidden_again = None.
Proof.
  split; [reflexivity|].
  exact (hidden_rests_at_zero (undo_props false None)
           (toggled_twice ++ [ Update (undo_props false None) ])
           hidden_again eq_refl eq_refl).
Defined.

(** X7. The only animation that ever runs on the progress value is the
    one [_show] starts at rest: from 0 to 1 in 200 ms.  While it runs the
    [visible] prop is true and no timer is pending. *)
Theorem running_animation_is_show (p0 : Props) (es : list Event)
    (w : World) (a : Animation) :
  run (mount p0) es = Some w ->
  scale_animation w = Some a ->
  a = mkAnimation (Exactly 0) 1 200 show_onEnd /\
  timers w = [] /\
  visible (props w) = true.
Proof.
  intros Hr Ha. exact (inv_anim w (Inv_reachable p0 es w Hr) a Ha).
Qed.

Lemma running_animation_is_show_witness :
  show_animation = mkAnimation (Exactly 0) 1 200 show_onEnd /\
  timers unmounted_mid_show = [] /\
  visible (props unmounted_mid_show) = true.
Proof.
  exact (running_animation_is_show (undo_props false None)
           [ Update (undo_props true None); Unmount ] unmounted_mid_show
           show_animation eq_refl eq_refl).
Defined.

(** At rest, with no timer pending, events that leave [visible] as it is
    start nothing. *)
Lemma at_rest_step (b : bool) (w w' : World) (e : Event) :
  visible (props w) = b ->
  scale_animation w = None ->
  timers w = [] ->
  keeps_visible b e = true ->
  step w e = Some w' ->
  visible (props w') = b /\
  scale_value w' = scale_value w /\
  scale_animation w' = None /\
  timers w' = [] /\
  exists tr, log w' = (log w ++ tr)%list /\
             no_timer_or_animation_effects tr = true.
Proof.
  destruct w as [p v a h ts n l m]; cbn. intros Hv -> ->.
  destruct e as [p' | fin | k | | ]; cbn.
  - intro Hk. apply Bool.eqb_prop in Hk.
    destruct m; [|discriminate]. intros [= <-].
    unfold exec, componentDidUpdate, bind, this_props; cbn.
    rewrite Hv, Hk, Bool.eqb_reflx; cbn.
    repeat split; auto. log_suffix; reflexivity.
  - discriminate.
  - discriminate.
  - intros _. destruct m; [|discriminate].
    destruct (action p); [|discriminate]. intros [= <-].
    cbn. repeat split; auto. log_suffix; reflexivity.
  - intros _. destruct m; [|discriminate]. intros [= <-].
    unfold exec, componentWillUnmount, bind, this_hideTimeout; cbn.
    destruct h; cbn; repeat split; auto; log_suffix; reflexivity.
Qed.

(** X8. A hidden snackbar with no timer pending stays silent: as long as
    no re-render makes [visible] true, the progress value stays at 0, no
    animation is started, no timer is scheduled and [onDismiss] is not
    called by a timer. *)
Theorem hidden_at_rest_is_silent (p0 : Props) (es : list Event) (w : World)
    (es' : list Event) (w' : World) :
  run (mount p0) es = Some w ->
  visible (props w) = false ->
  timers w = [] ->
  forallb (keeps_visible false) es' = true ->
  run w es' = Some w' ->
  scale_value w' = Exactly 0 /\
  scale_animation w' = None /\
  timers w' = [] /\
  exists tr, log w' = (log w ++ tr)%list /\
             no_timer_or_animation_effects tr = true.
Proof.
  intros Hr Hv Ht Hk Hr'.
  pose proof (Inv_reachable p0 es w Hr) as I.
  pose proof (inv_hidden w I Hv) as H0.
  pose proof (hidden_idle w I Hv) as Ha.
  rewrite <- H0. clear Hr I H0. revert w Hv Ht Ha Hr'.
  induction es' as [|e es' IH]; intros w Hv Ht Ha Hr'; cbn in *.
  - injection Hr' as <-. repeat split; auto.
    exists []. now rewrite app_nil_r.
  - apply Bool.andb_true_iff in Hk as [Hk1 Hk2].
    destruct (step w e) as [w1|] eqn:Es; [|discriminate].
    destruct (at_rest_step false w w1 e Hv Ha Ht Hk1 Es)
      as (Hv1 & Hs1 & Ha1 & Ht1 & tr1 & L1 & N1).
    destruct (IH Hk2 w1 Hv1 Ht1 Ha1 Hr') as (H1 & H2 & H3 & tr2 & L2 & N2).
    repeat split; auto; [congruence|].
    exists (tr1 ++ tr2)%list. split.
    + now rewrite L2, L1, app_assoc.
    + unfold no_timer_or_animation_effects in *.
      now rewrite forallb_app, N1, N2.
Qed.

Lemma hidden_at_rest_is_silent_witness :
  scale_value pressed_while_hidden = Exactly 0 /\
  scale_animation pressed_while_hidden = None /\
  timers pressed_while_hidden = [] /\
  exists tr, log pressed_while_hidden = (log hidden_again ++ tr)%list /\
             no_timer_or_animation_effects tr = true.
Proof.
  exact (hidden_at_rest_is_silent (undo_props false None)
           (toggled_twice ++ [ Update (undo_props false None) ])
           hidden_again
           [ Update (other_props false (Num 1500)); PressAction ]
           pressed_while_hidden eq_refl eq_refl eq_refl eq_refl eq_refl).
Defined.

(** X9. Unmounting clears the stored handle and leaves no timer pending;
    when no show animation runs at that moment, nothing happens after it:
    whatever the host still delivers, the log ends with that
    [clearTimeout], so a timer that was pending at unmount never calls
    [onDismiss]. *)
Theorem unmount_at_rest_cancels_for_good (p0 : Props) (es : list Event)
    (w : World) (es' : list Event) (w' : World) :
  run (mount p0) es = Some w ->
  mounted w = true ->
  scale_animation w = None ->
  run w (Unmount :: es') = Some w' ->
  timers w' = [] /\
  mounted w' = false /\
  log w' = (log w ++ [ClearTimeout (_hideTimeout w)])%list.
Proof.
  intros Hr Hm Ha Hr'. cbn [run] in Hr'.
  destruct (unmount_clears_pending p0 es w Hr Hm)
    as (w1 & Hs & Hl & Ht & Ha1 & Hm1).
  rewrite Hs in Hr'.
  assert (E : w' = w1).
  { apply (unmounted_idle_is_final w1 w' es'); congruence. }
  subst w'. auto.
Qed.

Lemma unmount_at_rest_cancels_for_good_witness :
  exists w',
    run shown_with_timer [ Unmount ] = Some w' /\
    timers w' = [] /\
    log w' = (log shown_with_timer ++ [ ClearTimeout (Some 0) ])%list.
Proof.
  eexists. split; [reflexivity|].
  destruct (unmount_at_rest_cancels_for_good (undo_props false None)
              [ Update (undo_props true None); AnimationEnd true ]
              shown_with_timer []
              (with_mounted false (exec componentWillUnmount shown_with_timer))
              eq_refl eq_refl eq_refl eq_refl)
    as (H1 & _ & H2).
  split; assumption.
Defined.

Lemma count_effects_app (f : Effect -> bool) (a b : list Effect) :
  count_effects f (a ++ b) = (count_effects f a + count_effects f b)%nat.
Proof.
  unfold count_effects. now rewrite filter_app, length_app.
Qed.

Lemma step_counts (w w' : World) (e : Event) :
  step w e = Some w' ->
  exists tr,
    log w' = (log w ++ tr)%list /\
    (count_effects is_SetTimeout tr + running w'
     <= count_effects is_TimingStart tr + running w)%nat.
Proof.
  destruct w as [p v a h ts n l m]. destruct e as [p' | fin | k | | ]; cbn.
  - destruct m; [|discriminate]. intros [= <-].
    unfold exec, componentDidUpdate, _toggle, _show, _hide, setValue,
      timing_start, stop_running, invoke_onEnd, _show_onEnd, bind,
      this_props; cbn.
    destruct p as [vis ? ? ? ? ? ?], p' as [vis' ? d' ? ? ? ?].
    destruct vis, vis', h, a as [[? ? ? []]|]; cbn;
      try destruct (number_strict_neq d' _); cbn;
      log_suffix; cbn; lia.
  - destruct a as [[? ? ? []]|]; [|discriminate].
    unfold exec, _show_onEnd, bind, this_props.
    destruct fin, m; cbn; try discriminate; intros [= <-];
      destruct (number_strict_neq (duration p) _); cbn;
      log_suffix; cbn; lia.
  - destruct (find _ ts) as [t|]; [|discriminate].
    intros [= <-]. log_suffix. destruct a; cbn; lia.
  - destruct m; [|discriminate].
    destruct (action p); [|discriminate]. intros [= <-].
    log_suffix; destruct a; cbn; lia.
  - destruct m; [|discriminate]. intros [= <-].
    unfold exec, componentWillUnmount, bind, this_hideTimeout; cbn.
    destruct h; log_suffix; destruct a; cbn; lia.
Qed.

Lemma run_counts (es : list Event) (w w' : World) :
  run w es = Some w' ->
  exists tr,
    log w' = (log w ++ tr)%list /\
    (count_effects is_SetTimeout tr + running w'
     <= count_effects is_TimingStart tr + running w)%nat.
Proof.
  revert w; induction es as [|e es IH]; intros w Hr; cbn in Hr.
  - injection Hr as <-. exists []. rewrite app_nil_r. split; [reflexivity|].
    cbn. lia.
  - destruct (step w e) as [w1|] eqn:Es; [|discriminate].
    destruct (step_counts w w1 e Es) as (tr1 & L1 & C1).
    destruct (IH w1 Hr) as (tr2 & L2 & C2).
    exists (tr1 ++ tr2)%list. split.
    + now rewrite L2, L1, app_assoc.
    + rewrite !count_effects_app. lia.
Qed.

(** X10. The component schedules at most one timer per show: in the log
    of every run from mount, the calls of [setTimeout] are no more than
    the animations started, and fewer while an animation still runs. *)
Theorem one_timer_per_show (p0 : Props) (es : list Event) (w : World) :
  run (mount p0) es = Some w ->
  (count_effects is_SetTimeout (log w) + running w
   <= count_effects is_TimingStart (log w))%nat.
Proof.
  intro Hr. destruct (run_counts es (mount p0) w Hr) as (tr & L & C).
  cbn in L, C. rewrite L. lia.
Qed.

Lemma one_timer_per_show_witness :
  (count_effects is_SetTimeout (log after_toggled_twice)
   + running after_toggled_twice
   <= count_effects is_TimingStart (log after_toggled_twice))%nat.
Proof.
  exact (one_timer_per_show (undo_props false None) toggled_twice
           after_toggled_twice eq_refl).
Defined.

Lemma remove_timer_shrinks (h : TimeoutID) (t : Timer) (ts : list Timer) :
  find_timer h ts = Some t ->
  (S (List.length (remove_timer h ts)) <= List.length ts)%nat.
Proof.
  unfold find_timer, remove_timer.
  induction ts as [|t0 ts IH]; cbn; [discriminate|].
  destruct (Nat.eqb (timer_id t0) h); cbn.
  - intros _. pose proof (filter_length_le
                (fun t1 => negb (Nat.eqb (timer_id t1) h)) ts). lia.
  - intro H. specialize (IH H). lia.
Qed.

Ltac bound_filters :=
  repeat match goal with
    | |- context [List.length (filter ?f ?l)] =>
        let H := fresh "Hlen" in
        pose proof (filter_length_le f l) as H;
        generalize dependent (List.length (filter f l)); intros
    end.

Lemma step_fires (w w' : World) (e : Event) :
  step w e = Some w' ->
  exists tr,
    log w' = (log w ++ tr)%list /\
    (count_effects is_TimerCall tr + List.length (timers w')
     <= count_effects is_SetTimeout tr + List.length (timers w))%nat.
Proof.
  destruct w as [p v a h ts n l m]. destruct e as [p' | fin | k | | ]; cbn.
  - destruct m; [|discriminate]. intros [= <-].
    unfold exec, componentDidUpdate, _toggle, _show, _hide, setValue,
      timing_start, stop_running, invoke_onEnd, _show_onEnd, bind,
      this_props; cbn.
    destruct p as [vis ? ? ? ? ? ?], p' as [vis' ? d' ? ? ? ?].
    destruct vis, vis', h, a as [[? ? ? []]|]; cbn;
      try destruct (number_strict_neq d' _); cbn;
      log_suffix; cbn; rewrite ?length_app; cbn; bound_filters; lia.
  - destruct a as [[? ? ? []]|]; [|discriminate].
    unfold exec, _show_onEnd, bind, this_props.
    destruct fin, m; cbn; try discriminate; intros [= <-];
      destruct (number_strict_neq (duration p) _); cbn;
      log_suffix; cbn; rewrite ?length_app; cbn; lia.
  - destruct (find _ ts) as [t|] eqn:Ef; [|discriminate].
    change (find_timer k ts = Some t) in Ef.
    intros [= <-]. log_suffix. cbn.
    pose proof (remove_timer_shrinks k t ts Ef) as Hs.
    unfold remove_timer in Hs. lia.
  - destruct m; [|discriminate].
    destruct (action p); [|discriminate]. intros [= <-].
    log_suffix; cbn; lia.
  - destruct m; [|discriminate]. intros [= <-].
    unfold exec, componentWillUnmount, bind, this_hideTimeout; cbn.
    destruct h; log_suffix; cbn; bound_filters; lia.
Qed.

Lemma run_fires (es : list Event) (w w' : World) :
  run w es = Some w' ->
  exists tr,
    log w' = (log w ++ tr)%list /\
    (count_effects is_TimerCall tr + List.length (timers w')
     <= count_effects is_SetTimeout tr + List.length (timers w))%nat.
Proof.
  revert w; induction es as [|e es IH]; intros w Hr; cbn in Hr.
  - injection Hr as <-. exists []. rewrite app_nil_r. split; [reflexivity|].
    cbn. lia.
  - destruct (step w e) as [w1|] eqn:Es; [|discriminate].
    destruct (step_fires w w1 e Es) as (tr1 & L1 & C1).
    destruct (IH w1 Hr) as (tr2 & L2 & C2).
    exists (tr1 ++ tr2)%list. split.
    + now rewrite L2, L1, app_assoc.
    + rewrite !count_effects_app. lia.
Qed.

(** X13. Timers call [onDismiss] at most once per show: in the log of
    every run from mount, the calls made by timers going off, together
    with the timers still pending, are no more than the calls of
    [setTimeout], and so no more than the animations started. *)
Theorem auto_dismiss_at_most_once_per_show (p0 : Props) (es : list Event)
    (w : World) :
  run (mount p0) es = Some w ->
  (count_effects is_TimerCall (log w) + List.length (timers w)
   <= count_effects is_SetTimeout (log w))%nat /\
  (count_effects is_TimerCall (log w) + List.length (timers w) + running w
   <= count_effects is_TimingStart (log w))%nat.
Proof.
  intro Hr.
  destruct (run_fires es (mount p0) w Hr) as (tr & L & C).
  destruct (run_counts es (mount p0) w Hr) as (tr' & L' & C').
  rewrite L in L'. apply app_inv_head in L'. subst tr'.
  cbn [mount log timers running scale_animation app] in L, C, C'.
  rewrite L. cbn [List.length] in C. lia.
Qed.

Lemma auto_dismiss_at_most_once_per_show_witness :
  (count_effects is_TimerCall (log after_toggled_twice)
   + List.length (timers after_toggled_twice)
   <= count_effects is_SetTimeout (log after_toggled_twice))%nat /\
  (count_effects is_TimerCall (log after_toggled_twice)
   + List.length (timers after_toggled_twice) + running after_toggled_twice
   <= count_effects is_TimingStart (log after_toggled_twice))%nat.
Proof.
  exact (auto_dismiss_at_most_once_per_show (undo_props false None)
           toggled_twice after_toggled_twice eq_refl).
Defined.

(** X14. Unmounting leaves no timer pending, in whatever state the
    instance is, and makes no call but the one [clearTimeout]. *)
Theorem unmount_leaves_no_timer (p0 : Props) (es : list Event) (w : World) :
  run (mount p0) es = Some w ->
  mounted w = true ->
  exists w',
    step w Unmount = Some w' /\
    log w' = (log w ++ [ClearTimeout (_hideTimeout w)])%list /\
    timers w' = [] /\
    mounted w' = false.
Proof.
  intros Hr Hm.
  destruct (unmount_clears_pending p0 es w Hr Hm)
    as (w' & Hs & Hl & Ht & _ & Hm').
  exists w'. auto.
Qed.

Lemma unmount_leaves_no_timer_witness :
  exists w',
    step after_toggled_twice Unmount = Some w' /\
    log w' = (log after_toggled_twice ++ [ClearTimeout (Some 1)])%list /\
    timers w' = [] /\
    mounted w' = false.
Proof.
  exact (unmount_leaves_no_timer (undo_props false None) toggled_twice
           after_toggled_twice eq_refl eq_refl).
Defined.

(** X15. An instance unmounted while its show animation runs, with a
    [duration] other than the indefinite sentinel, still gets its timer:
    when the animation ends, finished or stopped, the completion callback
    schedules it, and when it goes off [onDismiss] is called on the
    unmounted instance. *)
Theorem unmount_mid_show_still_dismisses (p0 : Props) (es : list Event)
    (w : World) (a : Animation) (finished : bool) :
  run (mount p0) es = Some w ->
  mounted w = true ->
  scale_animation w = Some a ->
  duration (props w) <> DURATION_INDEFINITE ->
  exists w',
    run w [ Unmount; AnimationEnd finished;
            TimerFire (next_timeout_id w) ] = Some w' /\
    mounted w' = false /\
    log w' = (log w ++
              [ ClearTimeout (_hideTimeout w);
                SetTimeout (next_timeout_id w) (onDismiss (props w))
                           (duration (props w));
                TimerCall (next_timeout_id w) (onDismiss (props w)) ])%list.
Proof.
  intros Hr Hm Ha Hd.
  pose proof (Inv_reachable p0 es w Hr) as I.
  pose proof (cleared_nil w I) as Hc.
  destruct (inv_anim w I a Ha) as (-> & _ & _).
  cbn [run]. unfold step at 1. rewrite Hm, exec_componentWillUnmount.
  unfold step at 1. cbn. rewrite Ha, Hc. cbn.
  rewrite Bool.orb_true_r.
  rewrite exec_show_onEnd_finite by exact Hd.
  unfold step, find_timer, remove_timer; cbn. rewrite Nat.eqb_refl; cbn.
  eexists. split; [reflexivity|]. cbn. split; [reflexivity|].
  now rewrite <- !app_assoc.
Qed.

Lemma unmount_mid_show_still_dismisses_witness :
  exists w',
    run mid_show [ Unmount; AnimationEnd false; TimerFire 0 ] = Some w' /\
    mounted w' = false /\
    log w' = (log mid_show ++
              [ ClearTimeout None; SetTimeout 0 1 (Num 6000);
                TimerCall 0 1 ])%list.
Proof.
  apply (unmount_mid_show_still_dismisses (undo_props false None)
           [ Update (undo_props true None) ] mid_show show_animation false
           eq_refl eq_refl eq_refl).
  discriminate.
Defined.

(* ------------------------------------------------------------------ *)
(** ** Further properties of the rendering *)

(** X11. The caller's [style] comes last in the style array of the
    animated view: whatever it sets wins, also over the opacity and the
    transform the component computes. *)
Theorem caller_style_wins (p : Props) (s : Style) (key : string)
    (v : StyleValue) :
  style p = Some s ->
  style_get key s = Some v ->
  flatten_get key (view_style (render p)) = Some v.
Proof.
  intros Hs Hk. cbn. now rewrite Hs, Hk.
Qed.

Lemma caller_style_wins_witness :
  flatten_get "opacity" (view_style (render hidden_opaque_props))
    = Some (VNum 1).
Proof.
  exact (caller_style_wins hidden_opaque_props [ ("opacity", VNum 1) ]
           "opacity" (VNum 1) eq_refl eq_refl).
Defined.

(** X12. In every render the corner radius of the container is the
    theme's roundness and not the 4 of the style sheet, the text leaves a
    right margin of 16 exactly when there is no action, and there is a
    button exactly when there is an action; the button, when there is one,
    has the theme's accent colour. *)
Theorem container_follows_theme_and_action (p : Props) :
  flatten_get "borderRadius" (container_style (render p))
    = Some (VNum (roundness (theme p))) /\
  flatten_get "marginRight" (text_style (render p))
    = Some (VNum (match action p with Some _ => 0 | None => 16 end)) /\
  (button (render p) = None <-> action p = None) /\
  (forall b, button (render p) = Some b ->
     button_color b = colors_accent (theme p)).
Proof.
  unfold render; cbn. repeat split.
  - destruct (action p); [discriminate | reflexivity].
  - intros ->. reflexivity.
  - intros b. destruct (action p); [|discriminate].
    intros [= <-]. reflexivity.
Qed.
